(** * The FIA sporting-regulations tyre scraper ([fia-regulations-scaping.py])

    A shallow embedding of the segmenter ([parse_regulations]), the locator
    ([find_tyre_article_id]), the field extractor ([extract_tyre_data], with
    [text_to_int]) and the aggregation loop that fills [full_database],
    together with the part of Python's [re] module the script relies on.

    Text is a [string] whose characters are read as the code points 0-255;
    the character tables below ([\s], [\d], [\w], [str.lower]) are those of
    Python 3 on that range. *)

From Stdlib Require Import Bool Arith Lia List ZArith NArith.
From Stdlib Require Import Ascii String.
From Stdlib Require Import DecimalString DecimalZ.
Import ListNotations.

Open Scope string_scope.

(* ================================================================= *)
(** ** Characters *)

Module Char.

Definition code (c : ascii) : N := N_of_ascii c.

Definition between (lo hi : N) (c : ascii) : bool :=
  ((lo <=? code c) && (code c <=? hi))%N.

(** [str.isspace], which is also [\s]. *)
Definition isspace (c : ascii) : bool :=
  between 9 13 c || between 28 32 c || between 133 133 c || between 160 160 c.

(** [str.isdecimal], which is also [\d]. *)
Definition isdecimal (c : ascii) : bool := between 48 57 c.

(** [str.isalnum]. *)
Definition isalnum (c : ascii) : bool :=
  between 48 57 c || between 65 90 c || between 97 122 c
  || between 170 170 c || between 178 179 c || between 181 181 c
  || between 185 186 c || between 188 190 c
  || between 192 214 c || between 216 246 c || between 248 255 c.

(** [\w]: alphanumeric or the underscore. *)
Definition isword (c : ascii) : bool := isalnum c || between 95 95 c.

(** [str.lower] on one character. *)
Definition lower (c : ascii) : ascii :=
  if between 65 90 c || between 192 214 c || between 216 222 c
  then ascii_of_N (code c + 32)
  else c.

End Char.

(* ================================================================= *)
(** ** Strings *)

Module Str.

Definition is_empty (s : string) : bool :=
  match s with EmptyString => true | String _ _ => false end.

Fixpoint map (f : ascii -> ascii) (s : string) : string :=
  match s with
  | EmptyString => EmptyString
  | String c s' => String (f c) (map f s')
  end.

Fixpoint filter (p : ascii -> bool) (s : string) : string :=
  match s with
  | EmptyString => EmptyString
  | String c s' => if p c then String c (filter p s') else filter p s'
  end.

Fixpoint forallb (p : ascii -> bool) (s : string) : bool :=
  match s with
  | EmptyString => true
  | String c s' => p c && forallb p s'
  end.

(** [s.lower()] *)
Definition lower (s : string) : string := map Char.lower s.

(** [s[:n]] *)
Fixpoint take (n : nat) (s : string) : string :=
  match n, s with
  | S n', String c s' => String c (take n' s')
  | _, _ => EmptyString
  end.

(** [s.startswith(p)] *)
Fixpoint starts_with (p s : string) : bool :=
  match p, s with
  | EmptyString, _ => true
  | String a p', String b s' => Ascii.eqb a b && starts_with p' s'
  | String _ _, EmptyString => false
  end.

(** [k in s] *)
Fixpoint contains (k s : string) : bool :=
  starts_with k s ||
  match s with
  | EmptyString => false
  | String _ s' => contains k s'
  end.

(** [s.split("\n")]: the pieces between line feeds; never an empty list. *)
Fixpoint split_lines (s : string) : list string :=
  match s with
  | EmptyString => [EmptyString]
  | String c s' =>
      if Ascii.eqb c "010"%char then EmptyString :: split_lines s'
      else match split_lines s' with
           | l :: ls => String c l :: ls
           | [] => [String c EmptyString]
           end
  end.

Definition newline : string := String "010"%char EmptyString.

(** [str(n)] for an integer. *)
Definition of_int (n : Z) : string := NilZero.string_of_int (Z.to_int n).

End Str.

(* ================================================================= *)
(** ** Exceptions *)

(** The exceptions that can arise: the three the script's own operations
    can raise, and [ReadError] for whatever the page-text extractor raises
    when a file cannot be opened or a page cannot be read. *)
Inductive exn := IndexError | TypeError | KeyError | ReadError.

Inductive exc (A : Type) : Type :=
| Ok (a : A)
| Raise (e : exn).
Arguments Ok {A} a.
Arguments Raise {A} e.

Definition bind {A B : Type} (m : exc A) (f : A -> exc B) : exc B :=
  match m with
  | Ok a => f a
  | Raise e => Raise e
  end.

Notation "x <- m ;; k" := (bind m (fun x => k))
  (at level 61, m at next level, right associativity).

(** Truthiness of an optional string: [None] and the empty string are
    falsy. *)
Definition truthy (o : option string) : bool :=
  match o with
  | Some s => negb (Str.is_empty s)
  | None => false
  end.

(* ================================================================= *)
(** ** The regular expressions of [re] used by the script *)

Module Re.

Record flags := { IGNORECASE : bool; DOTALL : bool }.

(** One-character classes. *)
Inductive charset :=
| Space                       (* \s *)
| Digit                       (* \d *)
| Word                        (* \w *)
| Range (lo hi : ascii)       (* [lo-hi] *)
| OneOf (cs : string)         (* [abc] *)
| Dot.                        (* . *)

(** The patterns of the script only repeat one-character classes, so the
    repetitions carry a class. *)
Inductive regex :=
| Bol                           (* ^ *)
| Lit (s : string)              (* literal text *)
| One (cs : charset)            (* one character of a class *)
| Many (cs : charset)           (* cs*   greedy *)
| Many1 (cs : charset)          (* cs+   greedy *)
| Lazy (cs : charset)           (* cs*?  non-greedy *)
| Maybe (r : regex)             (* (?:r)? greedy *)
| Cat (r1 r2 : regex)           (* r1r2 *)
| Or (r1 r2 : regex)            (* r1|r2 *)
| Group (n : nat) (r : regex).  (* (r), the n-th capturing group *)

Declare Scope re_scope.
Delimit Scope re_scope with re.
Bind Scope re_scope with regex.
Infix "+++" := Cat (at level 60, right associativity) : re_scope.

(** Equality of two characters under the flags. *)
Definition chr_eq (f : flags) (a b : ascii) : bool :=
  if IGNORECASE f then Ascii.eqb (Char.lower a) (Char.lower b)
  else Ascii.eqb a b.

Fixpoint exists_in (p : ascii -> bool) (s : string) : bool :=
  match s with
  | EmptyString => false
  | String c s' => p c || exists_in p s'
  end.

(** The characters [lo], [lo+1], ..., [hi]. *)
Definition range_chars (lo hi : ascii) : list ascii :=
  List.map (fun i => ascii_of_nat (nat_of_ascii lo + i))
           (seq 0 (S (nat_of_ascii hi) - nat_of_ascii lo)).

Definition in_class (f : flags) (cs : charset) (c : ascii) : bool :=
  match cs with
  | Space => Char.isspace c
  | Digit => Char.isdecimal c
  | Word => Char.isword c
  | Range lo hi => existsb (fun x => chr_eq f x c) (range_chars lo hi)
  | OneOf l => exists_in (fun x => chr_eq f x c) l
  | Dot => DOTALL f || negb (Ascii.eqb c "010"%char)
  end.

(** Strip a literal from the front of the subject. *)
Fixpoint strip (f : flags) (l s : string) : option (string * string) :=
  match l, s with
  | EmptyString, _ => Some (EmptyString, s)
  | String a l', String b s' =>
      if chr_eq f a b then
        match strip f l' s' with
        | Some (c, rest) => Some (String b c, rest)
        | None => None
        end
      else None
  | String _ _, EmptyString => None
  end.

Definition groups := list (option string).

Fixpoint set_group (n : nat) (c : string) (g : groups) : groups :=
  match n, g with
  | 1, _ :: g' => Some c :: g'
  | S n', x :: g' => x :: set_group n' c g'
  | _, _ => g
  end.

Section Matcher.
Context {A : Type}.
Variable f : flags.

(** A continuation receives the text just consumed and the rest. *)
Definition cont := string -> string -> option A.

Definition orelse (a : option A) (b : unit -> option A) : option A :=
  match a with
  | Some x => Some x
  | None => b tt
  end.

(** [cs*]: longest first, giving back one character at a time. *)
Fixpoint greedy (cs : charset) (s : string) (k : cont) : option A :=
  match s with
  | String c s' =>
      if in_class f cs c
      then orelse (greedy cs s' (fun t rest => k (String c t) rest))
                  (fun _ => k EmptyString s)
      else k EmptyString s
  | EmptyString => k EmptyString s
  end.

(** [cs*?]: shortest first, taking one more character at a time. *)
Fixpoint lazy (cs : charset) (s : string) (k : cont) : option A :=
  orelse (k EmptyString s)
         (fun _ =>
            match s with
            | String c s' =>
                if in_class f cs c
                then lazy cs s' (fun t rest => k (String c t) rest)
                else None
            | EmptyString => None
            end).

(** The backtracking matcher: [pos] is the offset of [s] in the
    subject, [g] the groups captured so far. *)
Fixpoint run (r : regex) (pos : nat) (s : string) (g : groups)
         (k : string -> string -> groups -> option A) : option A :=
  match r with
  | Bol => if Nat.eqb pos 0 then k EmptyString s g else None
  | Lit l =>
      match strip f l s with
      | Some (c, rest) => k c rest g
      | None => None
      end
  | One cs =>
      match s with
      | String c s' =>
          if in_class f cs c then k (String c EmptyString) s' g else None
      | EmptyString => None
      end
  | Many cs => greedy cs s (fun c rest => k c rest g)
  | Many1 cs =>
      match s with
      | String c s' =>
          if in_class f cs c
          then greedy cs s' (fun t rest => k (String c t) rest g)
          else None
      | EmptyString => None
      end
  | Lazy cs => lazy cs s (fun c rest => k c rest g)
  | Maybe r1 => orelse (run r1 pos s g k) (fun _ => k EmptyString s g)
  | Cat r1 r2 =>
      run r1 pos s g (fun c1 s1 g1 =>
        run r2 (pos + length c1) s1 g1 (fun c2 s2 g2 =>
          k (c1 ++ c2) s2 g2))
  | Or r1 r2 => orelse (run r1 pos s g k) (fun _ => run r2 pos s g k)
  | Group n r1 => run r1 pos s g (fun c rest g' => k c rest (set_group n c g'))
  end.
End Matcher.

(** The number of capturing groups of a pattern. *)
Fixpoint ngroups (r : regex) : nat :=
  match r with
  | Maybe r1 => ngroups r1
  | Cat r1 r2 | Or r1 r2 => Nat.max (ngroups r1) (ngroups r2)
  | Group n r1 => Nat.max n (ngroups r1)
  | _ => 0
  end.

(** A match object: the matched text and the captured groups. *)
Record Match := { m_text : string; m_groups : groups }.

Definition attempt (f : flags) (r : regex) (pos : nat) (s : string)
  : option Match :=
  run f r pos s (repeat None (ngroups r))
      (fun c _ g => Some {| m_text := c; m_groups := g |}).

(** [re.match(r, s, f)] *)
Definition re_match (r : regex) (s : string) (f : flags) : option Match :=
  attempt f r 0 s.

(** [re.search(r, s, f)]: the attempt at the leftmost offset that has one. *)
Fixpoint search_from (f : flags) (r : regex) (pos : nat) (s : string)
  : option Match :=
  match attempt f r pos s with
  | Some m => Some m
  | None =>
      match s with
      | EmptyString => None
      | String _ s' => search_from f r (S pos) s'
      end
  end.

Definition re_search (r : regex) (s : string) (f : flags) : option Match :=
  search_from f r 0 s.

(** [m.group(n)]: [None] for a group that took no part in the match,
    [IndexError] for a group the pattern does not have. *)
Definition group (m : Match) (n : nat) : exc (option string) :=
  match n with
  | 0 => Ok (Some (m_text m))
  | S i =>
      match nth_error (m_groups m) i with
      | Some o => Ok o
      | None => Raise IndexError
      end
  end.

(** [re.sub(r"[()]", "", s)] *)
Definition sub_parens (s : string) : string :=
  Str.filter (fun c => negb (Ascii.eqb c "("%char || Ascii.eqb c ")"%char)) s.

End Re.

Import Re.
Open Scope re_scope.

Definition I_ : flags := {| IGNORECASE := true; DOTALL := false |}.
Definition I_S : flags := {| IGNORECASE := true; DOTALL := true |}.

(* ================================================================= *)
(** ** Dictionaries

    A Python [dict] keeps its keys in insertion order, and the locator
    depends on that order, so a dictionary with string keys is an
    association list without repeated keys. *)

Module Dict.

Definition t (V : Type) := list (string * V).

(** [d.get(k)] *)
Fixpoint get {V} (d : t V) (k : string) : option V :=
  match d with
  | [] => None
  | (k', v) :: d' => if String.eqb k' k then Some v else get d' k
  end.

(** [k in d] *)
Definition mem {V} (d : t V) (k : string) : bool :=
  match get d k with Some _ => true | None => false end.

(** [d[k]] *)
Definition getitem {V} (d : t V) (k : string) : exc V :=
  match get d k with
  | Some v => Ok v
  | None => Raise KeyError
  end.

(** [d[k] = v]: in place for a key already there, at the end otherwise. *)
Fixpoint set {V} (d : t V) (k : string) (v : V) : t V :=
  match d with
  | [] => [(k, v)]
  | (k', v') :: d' =>
      if String.eqb k' k then (k', v) :: d' else (k', v') :: set d' k v
  end.

Definition keys {V} (d : t V) : list string := List.map fst d.

End Dict.

(* ================================================================= *)
(** ** The script *)

Definition REGULATION_FILES : list (Z * string) :=
  [ (2018%Z, "fia-pdfs\fia-sporting-regulations-2018.pdf");
    (2019%Z, "fia-pdfs\fia-sporting-regulations-2019.pdf");
    (2020%Z, "fia-pdfs\fia-sporting-regulations-2020.pdf");
    (2021%Z, "fia-pdfs\fia-sporting-regulations-2021.pdf");
    (2022%Z, "fia-pdfs\fia-sporting-regulations-2022.pdf");
    (2023%Z, "fia-pdfs\fia-sporting-regulations-2023.pdf");
    (2024%Z, "fia-pdfs\fia-sporting-regulations-2024.pdf");
    (2025%Z, "fia-pdfs\fia-sporting-regulations-2025.pdf");
    (2026%Z, "fia-pdfs\fia-sporting-regulations-2026.pdf") ].

(** *** [text_to_int] *)

Definition mapping : Dict.t Z :=
  [ ("one", 1); ("two", 2); ("three", 3); ("four", 4);
    ("five", 5); ("six", 6); ("seven", 7); ("eight", 8);
    ("nine", 9); ("ten", 10); ("eleven", 11); ("twelve", 12);
    ("thirteen", 13); ("fourteen", 14);
    ("1", 1); ("2", 2); ("3", 3); ("4", 4); ("5", 5);
    ("8", 8); ("12", 12); ("13", 13) ]%Z.

(** The argument is what [match.group(1)] gave: [re.sub] raises a
    [TypeError] on [None]. *)
Definition text_to_int (text : option string) : exc Z :=
  match text with
  | None => Raise TypeError
  | Some t =>
      let clean_text := Str.lower (sub_parens t) in
      Ok (match Dict.get mapping clean_text with
          | Some v => v
          | None => 0%Z
          end)
  end.

(** *** The external page-text extractor ([pdfplumber]) *)

(** [page.extract_text()] gives a text, gives [None], or raises. *)
Inductive page :=
| Page (text : option string)
| PageFails.

(** [pdfplumber.open(path)] gives the pages or raises. *)
Inductive pdf :=
| OpenFails
| Opened (pages : list page).

(** *** [parse_regulations] *)

(** [^\s*(?:ARTICLE\s+)?(B\d+(?:\.\d+)?)] *)
Definition sectioned_pattern : regex :=
  Bol +++ Many Space +++ Maybe (Lit "ARTICLE" +++ Many1 Space)
  +++ Group 1 (Lit "B" +++ Many1 Digit +++ Maybe (Lit "." +++ Many1 Digit)).

(** [^\s*(?:ARTICLE\s+(\d+)|(\d+)[\.\)]\s+[A-Z])] *)
Definition numeric_pattern : regex :=
  Bol +++ Many Space
  +++ Or (Lit "ARTICLE" +++ Many1 Space +++ Group 1 (Many1 Digit))
         (Group 2 (Many1 Digit) +++ One (OneOf ".)") +++ Many1 Space
          +++ One (Range "A" "Z")).

Definition article_pattern (year : Z) : regex :=
  if (year =? 2026)%Z then sectioned_pattern else numeric_pattern.

Record segmenter := { articles : Dict.t string; current_article : option string }.

Definition segmenter_init : segmenter :=
  {| articles := []; current_article := None |}.

(** [articles[key] += line + "\n"] *)
Definition append_line (arts : Dict.t string) (key line : string)
  : exc (Dict.t string) :=
  old <- Dict.getitem arts key ;;
  Ok (Dict.set arts key (old ++ line ++ Str.newline)).

(** [match.group(1) if match.group(1) else match.group(2)] *)
Definition new_key_of (m : Match) : exc (option string) :=
  g1 <- group m 1 ;;
  if truthy g1 then Ok g1 else group m 2.

(** The body of the loop over the lines of a page. *)
Definition line_step (pat : regex) (st : segmenter) (line : string)
  : exc segmenter :=
  match re_match pat line I_ with
  | Some m =>
      new_key <- new_key_of m ;;
      match new_key with
      | Some key =>
          if negb (Str.is_empty key) then
            let arts :=
              if negb (Dict.mem (articles st) key)
              then Dict.set (articles st) key EmptyString
              else articles st in
            arts' <- append_line arts key line ;;
            Ok {| articles := arts'; current_article := Some key |}
          else Ok st
      | None => Ok st
      end
  | None =>
      match current_article st with
      | Some key =>
          if negb (Str.is_empty key) then
            arts' <- append_line (articles st) key line ;;
            Ok {| articles := arts'; current_article := Some key |}
          else Ok st
      | None => Ok st
      end
  end.

Fixpoint lines_loop (pat : regex) (st : segmenter) (lines : list string)
  : exc segmenter :=
  match lines with
  | [] => Ok st
  | line :: rest => st' <- line_step pat st line ;; lines_loop pat st' rest
  end.

(** The body of the loop over the pages. *)
Definition page_step (pat : regex) (st : segmenter) (p : page) : exc segmenter :=
  match p with
  | PageFails => Raise ReadError
  | Page None => Ok st
  | Page (Some text) =>
      if Str.is_empty text then Ok st
      else lines_loop pat st (Str.split_lines text)
  end.

Fixpoint pages_loop (pat : regex) (st : segmenter) (pages : list page)
  : exc segmenter :=
  match pages with
  | [] => Ok st
  | p :: rest => st' <- page_step pat st p ;; pages_loop pat st' rest
  end.

(** The four fields of the dictionary [extract_tyre_data] returns. *)
Record tyre_data := {
  mandatory_dry_compounds : Z;
  total_sets_allocated : Z;
  wet_race_exception : bool;
  q2_start_tyre_rule : bool
}.

(** A value of [full_database]: the extracted fields and the
    [source_article] added by the loop. *)
Record constraints := {
  fields : tyre_data;
  source_article : string
}.

Definition database := Dict.t constraints.

(** What the script prints, one constructor per [print]. *)
Inductive msg :=
| MsgStarting
| MsgParsing (year : Z)
| MsgErrorReading (e : exn)
| MsgFound (year : Z) (tyre_id : string)
| MsgWarning
| MsgExtracted (c : constraints)
| MsgNotIdentified (year : Z).

(** The [try] block of [parse_regulations]. *)
Definition read_articles (pat : regex) (doc : pdf) : exc (Dict.t string) :=
  match doc with
  | OpenFails => Raise ReadError
  | Opened pages =>
      st <- pages_loop pat segmenter_init pages ;;
      Ok (articles st)
  end.

(** [fs] is the file system: what [pdfplumber.open] finds at a path.
    The result is the returned dictionary and the printed lines. *)
Definition parse_regulations (fs : string -> pdf) (year : Z) (file_path : string)
  : Dict.t string * list msg :=
  match read_articles (article_pattern year) (fs file_path) with
  | Ok arts => (arts, [MsgParsing year])
  | Raise e => ([], [MsgParsing year; MsgErrorReading e])
  end.

(** *** [find_tyre_article_id] *)

Definition keywords : list string :=
  ["supply of tyres"; "quantity of tyres"; "use of tyres"].

Fixpoint find_tyre_article_id (articles_dict : Dict.t string) : option string :=
  match articles_dict with
  | [] => None
  | (art_id, content) :: rest =>
      let header := Str.lower (Str.take 1000 content) in
      if existsb (fun k => Str.contains k header) keywords
      then Some art_id
      else find_tyre_article_id rest
  end.

(** *** [extract_tyre_data] *)

(** [(\w+|\d+)] *)
Definition value_group : regex := Group 1 (Or (Many1 Word) (Many1 Digit)).

(** [(?:\s*\(\d+\))?] *)
Definition paren_digits : regex :=
  Maybe (Many Space +++ Lit "(" +++ Many1 Digit +++ Lit ")").

(** [must\s+use\s+at\s+least\s+(\w+|\d+)(?:\s*\(\d+\))?\s+different] *)
Definition usage_pattern : regex :=
  Lit "must" +++ Many1 Space +++ Lit "use" +++ Many1 Space +++ Lit "at"
  +++ Many1 Space +++ Lit "least" +++ Many1 Space +++ value_group
  +++ paren_digits +++ Many1 Space +++ Lit "different".

(** Strategy A: [allocated\s+(\w+|\d+)(?:\s*\(\d+\))?\s+sets] *)
Definition strategy_A : regex :=
  Lit "allocated" +++ Many1 Space +++ value_group +++ paren_digits
  +++ Many1 Space +++ Lit "sets".

(** Strategy B: [use\s+no\s+more\s+than\s+(\w+|\d+)\s+sets] *)
Definition strategy_B : regex :=
  Lit "use" +++ Many1 Space +++ Lit "no" +++ Many1 Space +++ Lit "more"
  +++ Many1 Space +++ Lit "than" +++ Many1 Space +++ value_group
  +++ Many1 Space +++ Lit "sets".

(** Strategy C: [allocated\s+.*?(\w+|\d+)(?:\s*\(\d+\))?\s+sets] *)
Definition strategy_C : regex :=
  Lit "allocated" +++ Many1 Space +++ Lazy Dot +++ value_group
  +++ paren_digits +++ Many1 Space +++ Lit "sets".

Definition alloc_patterns : list regex := [strategy_A; strategy_B; strategy_C].

(** [Unless\s+he\s+has\s+used\s+intermediate\s+or\s+wet-weather\s+tyres] *)
Definition wet_pattern : regex :=
  Lit "Unless" +++ Many1 Space +++ Lit "he" +++ Many1 Space +++ Lit "has"
  +++ Many1 Space +++ Lit "used" +++ Many1 Space +++ Lit "intermediate"
  +++ Many1 Space +++ Lit "or" +++ Many1 Space +++ Lit "wet-weather"
  +++ Many1 Space +++ Lit "tyres".

(** [start\s+the\s+race.*?tyres.*?fastest\s+time.*?during\s+(?:Q2|the\s+second\s+period)] *)
Definition q2_pattern : regex :=
  Lit "start" +++ Many1 Space +++ Lit "the" +++ Many1 Space +++ Lit "race"
  +++ Lazy Dot +++ Lit "tyres" +++ Lazy Dot +++ Lit "fastest"
  +++ Many1 Space +++ Lit "time" +++ Lazy Dot +++ Lit "during"
  +++ Many1 Space
  +++ Or (Lit "Q2")
         (Lit "the" +++ Many1 Space +++ Lit "second" +++ Many1 Space
          +++ Lit "period").

(** The loop over [alloc_patterns]; [total] is the field's value so far,
    and returning [val] is the [break]. *)
Fixpoint alloc_loop (ps : list regex) (article_text : string) (total : Z)
  : exc Z :=
  match ps with
  | [] => Ok total
  | p :: rest =>
      match re_search p article_text I_S with
      | Some m =>
          g <- group m 1 ;;
          val <- text_to_int g ;;
          if (val >? 0)%Z then Ok val
          else alloc_loop rest article_text total
      | None => alloc_loop rest article_text total
      end
  end.

Definition extract_tyre_data (article_text : string) : exc tyre_data :=
  mandatory <-
    match re_search usage_pattern article_text I_S with
    | Some m => g <- group m 1 ;; text_to_int g
    | None => Ok 0%Z
    end ;;
  total <- alloc_loop alloc_patterns article_text 0%Z ;;
  let wet :=
    match re_search wet_pattern article_text I_ with
    | Some _ => true
    | None => false
    end in
  let q2 :=
    match re_search q2_pattern article_text I_S with
    | Some _ => true
    | None => false
    end in
  Ok {| mandatory_dry_compounds := mandatory;
        total_sets_allocated := total;
        wet_race_exception := wet;
        q2_start_tyre_rule := q2 |}.

(** *** The aggregation loop *)


(** The body of the loop over [REGULATION_FILES]; [log] is what has been
    printed so far. *)
Definition year_step (fs : string -> pdf) (st : database * list msg)
           (entry : Z * string) : exc (database * list msg) :=
  let '(full_database, log) := st in
  let '(year, file_path) := entry in
  let '(regs, out) := parse_regulations fs year file_path in
  match find_tyre_article_id regs with
  | Some tyre_id =>
      if negb (Str.is_empty tyre_id) then
        text <- Dict.getitem regs tyre_id ;;
        data <- extract_tyre_data text ;;
        let c := {| fields := data; source_article := tyre_id |} in
        let db := Dict.set full_database (Str.of_int year) c in
        let check :=
          if (total_sets_allocated data =? 0)%Z then MsgWarning
          else MsgExtracted c in
        Ok (db, (log ++ out ++ [MsgFound year tyre_id; check])%list)
      else Ok (full_database, (log ++ out ++ [MsgNotIdentified year])%list)
  | None => Ok (full_database, (log ++ out ++ [MsgNotIdentified year])%list)
  end.

Fixpoint years_loop (fs : string -> pdf) (st : database * list msg)
         (files : list (Z * string)) : exc (database * list msg) :=
  match files with
  | [] => Ok st
  | entry :: rest => st' <- year_step fs st entry ;; years_loop fs st' rest
  end.

(** Before the loop: [full_database = {}] and the first [print]. *)
Definition initial_state : database * list msg := ([], [MsgStarting]).

(** The script's run: the final [full_database], which is what is saved,
    and everything printed. *)
Definition run_script (fs : string -> pdf) : exc (database * list msg) :=
  years_loop fs initial_state REGULATION_FILES.

(* ================================================================= *)
(** ** Specification-side definitions *)

(** *** What a pattern denotes

    [denote f r pos g c g'] says that [r], started at offset [pos] with the
    groups [g], can consume exactly the text [c] and leave the groups
    [g']. It forgets the order in which the matcher tries things. *)

Fixpoint lit_eqb (f : flags) (l c : string) : bool :=
  match l, c with
  | EmptyString, EmptyString => true
  | String a l', String b c' => chr_eq f a b && lit_eqb f l' c'
  | _, _ => false
  end.

Fixpoint denote (f : flags) (r : regex) (pos : nat) (g : groups) (c : string)
         (g' : groups) : Prop :=
  match r with
  | Bol => pos = 0 /\ c = EmptyString /\ g' = g
  | Lit l => lit_eqb f l c = true /\ g' = g
  | One cs => (exists x, c = String x EmptyString /\ in_class f cs x = true) /\ g' = g
  | Many cs | Lazy cs => Str.forallb (in_class f cs) c = true /\ g' = g
  | Many1 cs =>
      Str.forallb (in_class f cs) c = true /\ c <> EmptyString /\ g' = g
  | Maybe r1 => denote f r1 pos g c g' \/ (c = EmptyString /\ g' = g)
  | Cat r1 r2 =>
      exists c1 c2 g1,
        c = c1 ++ c2 /\ denote f r1 pos g c1 g1
        /\ denote f r2 (pos + length c1) g1 c2 g'
  | Or r1 r2 => denote f r1 pos g c g' \/ denote f r2 pos g c g'
  | Group n r1 => exists g1, denote f r1 pos g c g1 /\ g' = set_group n c g1
  end.

(** No attempt of [r] succeeds at the offsets [0 .. n-1] of [s]. *)
Fixpoint no_match_before (f : flags) (r : regex) (pos n : nat) (s : string)
  : bool :=
  match n with
  | 0 => true
  | S n' =>
      match attempt f r pos s with
      | Some _ => false
      | None =>
          match s with
          | EmptyString => true
          | String _ s' => no_match_before f r (S pos) n' s'
          end
      end
  end.

(** What does not start with a character of the class. *)
Definition stops (f : flags) (cs : charset) (s : string) : Prop :=
  match s with
  | EmptyString => True
  | String x _ => in_class f cs x = false
  end.

(** *** The segmenter, line by line *)

(** The page-ordered lines of a document: pages without text give none. *)
Fixpoint doc_lines (pages : list page) : list string :=
  match pages with
  | [] => []
  | Page (Some text) :: rest =>
      ((if Str.is_empty text then [] else Str.split_lines text)
       ++ doc_lines rest)%list
  | _ :: rest => doc_lines rest
  end.

(** Every page can be read. *)
Definition readable (pages : list page) : Prop := ~ In PageFails pages.

(** The text of the document cannot be obtained. *)
Definition read_fails (doc : pdf) : Prop :=
  doc = OpenFails \/ exists pages, doc = Opened pages /\ In PageFails pages.

(** What the segmenter's loop keeps true: no article has the empty
    identifier, and the current article is one of the collection. *)
Definition segmenter_ok (st : segmenter) : Prop :=
  (forall k, In k (Dict.keys (articles st)) -> k <> EmptyString)
  /\ (forall k, current_article st = Some k -> In k (Dict.keys (articles st))).

(** The text accumulated so far under [key], empty for a new article. *)
Definition text_so_far (arts : Dict.t string) (key : string) : string :=
  match Dict.get arts key with
  | Some t => t
  | None => EmptyString
  end.

(** A string of decimal digits. *)
Definition digits (s : string) : Prop := Str.forallb Char.isdecimal s = true.

(** The identifier a heading line carries: the first non-empty capture
    group of the match, [None] for a line that is no heading. *)
Definition heading_key (pat : regex) (line : string) : option string :=
  match re_match pat line I_ with
  | Some m =>
      match List.find truthy (m_groups m) with
      | Some o => o
      | None => None
      end
  | None => None
  end.

(** Each line with the article it is attributed to: a heading line to the
    article it names, any other line to the article current at that point,
    if there is one. *)
Fixpoint attribute (pat : regex) (cur : option string) (lines : list string)
  : list (option string * string) :=
  match lines with
  | [] => []
  | l :: rest =>
      let cur' :=
        match heading_key pat l with
        | Some k => Some k
        | None => cur
        end in
      (cur', l) :: attribute pat cur' rest
  end.

(** The lines attributed to [key], each with its line feed, in order. *)
Fixpoint text_of (key : string) (tagged : list (option string * string))
  : string :=
  match tagged with
  | [] => EmptyString
  | (Some k, l) :: rest =>
      if String.eqb k key then l ++ Str.newline ++ text_of key rest
      else text_of key rest
  | (None, _) :: rest => text_of key rest
  end.

Definition attributed_to (key : string) (tagged : list (option string * string))
  : Prop :=
  exists l, In (Some key, l) tagged.

(** The decidable form of [attributed_to]. *)
Definition attributedb (key : string) (tagged : list (option string * string))
  : bool :=
  existsb (fun x => match fst x with
                    | Some k => String.eqb k key
                    | None => false
                    end) tagged.

(** *** The locator's test, in words *)

(** [k] occurs in [s]. *)
Definition occurs_in (k s : string) : Prop :=
  exists u v, s = u ++ k ++ v.

(** The first 1000 characters of [content], lower-cased, contain one of
    the three phrases. *)
Definition tyre_header (content : string) : Prop :=
  exists k,
    In k ["supply of tyres"; "quantity of tyres"; "use of tyres"]
    /\ occurs_in k (Str.lower (Str.take 1000 content)).

(** *** The allocation strategies, in words *)

(** The match of pattern [p] in [text] normalizes to [v]. *)
Definition normalizes_to (p : regex) (text : string) (v : Z) : Prop :=
  exists m t,
    re_search p text I_S = Some m
    /\ group m 1 = Ok (Some t)
    /\ text_to_int (Some t) = Ok v.

(** Pattern [p] yields a value greater than zero on [text]. *)
Definition yields_positive (p : regex) (text : string) : Prop :=
  exists v, normalizes_to p text v /\ (0 < v)%Z.

(** Every match of [r] captures a non-empty text in group 1, the only
    group of the pattern. *)
Definition captures_value (r : regex) : Prop :=
  forall f pos s m,
    attempt f r pos s = Some m ->
    exists t, m_groups m = [Some t] /\ t <> EmptyString.

(** *** The log *)

(** [a] is printed immediately before [b]. *)
Definition printed_in_a_row (a b : msg) (log : list msg) : Prop :=
  exists l1 l2, log = (l1 ++ a :: b :: l2)%list.

(** The years of a file table other than the entry at hand. *)
Definition years_of (files : list (Z * string)) : list Z := List.map fst files.

(** *** Sample documents *)

Module Sample.

(** The text of a page: its lines joined by line feeds. *)
Definition page_of (lines : list string) : page :=
  Page (Some (String.concat Str.newline lines)).

Definition title_lines : list string :=
  ["2018 FORMULA ONE SPORTING REGULATIONS"; "CONTENTS"].

Definition tyre_lines : list string :=
  ["24. SUPPLY OF TYRES";
   "Each driver must use at least two (2) different";
   "specifications... allocated thirteen (13) sets per event."].

(** A title page, a page without text, and the tyre article. *)
Definition with_title_page : list page :=
  [page_of title_lines; Page None; page_of tyre_lines].

(** Article 24 is interrupted by article 25 and resumed on the next page. *)
Definition resumed_article : list page :=
  [page_of ["24. SUPPLY OF TYRES"; "a) first part"; "25. WEIGHING"; "scales"];
   page_of ["24. SUPPLY OF TYRES (continued)"; "b) second part"]].

(** A tyre article that states no allocation. *)
Definition no_allocation : list page :=
  [page_of ["24. SUPPLY OF TYRES";
            "Each driver must use at least two (2) different";
            "specifications of dry-weather tyres."]].

Definition no_allocation_text : string :=
  String.concat Str.newline
    ["24. SUPPLY OF TYRES";
     "Each driver must use at least two (2) different";
     "specifications of dry-weather tyres."; EmptyString].

Definition path_2018 : string := "fia-pdfs\fia-sporting-regulations-2018.pdf".
Definition path_2020 : string := "fia-pdfs\fia-sporting-regulations-2020.pdf".

(** Every file holds the same readable document. *)
Definition fs_of (pages : list page) : string -> pdf := fun _ => Opened pages.

(** The 2020 file cannot be opened. *)
Definition fs_2020_missing : string -> pdf :=
  fun path =>
    if String.eqb path path_2020 then OpenFails else Opened with_title_page.

(** Two articles whose opening both mention a tyre phrase. *)
Definition two_tyre_articles : Dict.t string :=
  [ ("1", "1. REGULATIONS");
    ("24", "24. SUPPLY OF TYRES");
    ("25", "25. USE OF TYRES") ].

End Sample.

(** *** Shapes of text *)

(** A run of white space. *)
Definition blanks (s : string) : Prop := Str.forallb Char.isspace s = true.


(** The word "article" in any mix of cases. *)
Definition article_word (a : string) : Prop := Str.lower a = "article".

(** [rest] does not go on with a sub-number: a period and a digit. *)
Definition no_sub_number (rest : string) : Prop :=
  forall x r, rest = String "."%char (String x r) -> Char.isdecimal x = false.

(** *** Numerals *)

(** The values [text_to_int] knows in digits. *)
Definition digit_keys : list Z := [1; 2; 3; 4; 5; 8; 12; 13]%Z.

(** A decimal digit or the minus sign. *)
Definition numeral_char (c : ascii) : bool :=
  Char.isdecimal c || Ascii.eqb c "-"%char.

(** *** Measures of a collection *)

(** The number of characters held by a collection. *)
Definition total_length (arts : Dict.t string) : nat :=
  list_sum (List.map (fun kv => length (snd kv)) arts).

(** The number of characters of the attributed lines, line feeds included. *)
Fixpoint kept_length (tagged : list (option string * string)) : nat :=
  match tagged with
  | [] => 0
  | (Some _, l) :: rest => S (length l) + kept_length rest
  | (None, _) :: rest => kept_length rest
  end.

(** [k] put behind [seen] unless it is there already. *)
Definition add_key (seen : list string) (k : string) : list string :=
  if existsb (String.eqb k) seen then seen else (seen ++ [k])%list.

(** The identifiers of the heading lines, in the order of the lines. *)
Definition heading_keys (pat : regex) (lines : list string) : list string :=
  flat_map (fun l => match heading_key pat l with
                     | Some k => [k]
                     | None => []
                     end) lines.

(** The identifiers in the order in which each is first met. *)
Definition first_seen (ks : list string) : list string :=
  fold_left add_key ks [].

(** The lines, each followed by a line feed. *)
Fixpoint join_lines (lines : list string) : string :=
  match lines with
  | [] => EmptyString
  | l :: rest => l ++ Str.newline ++ join_lines rest
  end.

(** *** The record of one year *)

(** What the year's own document gives: the extracted fields with the
    located identifier, or nothing when no tyre article is located. *)
Definition record_of (fs : string -> pdf) (year : Z) (path : string)
  : option constraints :=
  let regs := fst (parse_regulations fs year path) in
  match find_tyre_article_id regs with
  | Some tyre_id =>
      match Dict.get regs tyre_id with
      | Some text =>
          match extract_tyre_data text with
          | Ok data => Some {| fields := data; source_article := tyre_id |}
          | Raise _ => None
          end
      | None => None
      end
  | None => None
  end.

(** The years announced in the log, in the order of the announcements. *)
Definition parsed_years (log : list msg) : list Z :=
  flat_map (fun m => match m with
                     | MsgParsing year => [year]
                     | _ => []
                     end) log.

(** *** More sample documents *)

Module Cases.

(** The lines of [Sample.resumed_article] on a single page. *)
Definition resumed_on_one_page : list page :=
  [Sample.page_of ["24. SUPPLY OF TYRES"; "a) first part"; "25. WEIGHING";
                   "scales"; "24. SUPPLY OF TYRES (continued)";
                   "b) second part"]].

(** The tyre article alone on one page. *)
Definition tyre_page_text : string :=
  String.concat Str.newline Sample.tyre_lines.

Definition weighing_text : string :=
  String.concat Str.newline ["25. WEIGHING"; "scales"; EmptyString].

End Cases.

(* ================================================================= *)
(** ** Strings: basic facts *)

Lemma append_nil_r (s : string) : s ++ EmptyString = s.
Proof. induction s as [|c s IH]; simpl; [reflexivity | now rewrite IH]. Qed.

Lemma append_assoc (a b c : string) : (a ++ b) ++ c = a ++ (b ++ c).
Proof. induction a as [|x a IH]; simpl; [reflexivity | now rewrite IH]. Qed.

Lemma is_empty_false (s : string) : Str.is_empty s = false <-> s <> EmptyString.
Proof. destruct s; simpl; split; intro H; congruence. Qed.

Lemma starts_with_spec (p s : string) :
  Str.starts_with p s = true <-> exists v, s = p ++ v.
Proof.
  revert s; induction p as [|a p IH]; intros s; simpl.
  - split; [intros _; now exists s | reflexivity].
  - destruct s as [|b s].
    + split; [discriminate | intros [v Hv]; discriminate].
    + rewrite andb_true_iff, Ascii.eqb_eq, IH. split.
      * intros [-> [v ->]]. now exists v.
      * intros [v Hv]. injection Hv as -> ->. split; [reflexivity | now exists v].
Qed.

Lemma contains_spec (k s : string) :
  Str.contains k s = true <-> occurs_in k s.
Proof.
  unfold occurs_in. induction s as [|c s IH].
  - simpl. rewrite orb_false_r, starts_with_spec. split.
    + intros [v Hv]. now exists EmptyString, v.
    + intros [u [v Hv]]. destruct u; simpl in Hv.
      * now exists v.
      * discriminate.
  - cbn [Str.contains]. rewrite orb_true_iff, starts_with_spec, IH. split.
    + intros [[v Hv] | [u [v Hv]]].
      * now exists EmptyString, v.
      * exists (String c u), v. simpl. now rewrite Hv.
    + intros [u [v Hv]]. destruct u as [|x u]; simpl in Hv.
      * left. now exists v.
      * right. injection Hv as _ Hv. now exists u, v.
Qed.

(* ================================================================= *)
(** ** The matcher is sound for what patterns denote *)

Section Soundness.
Context {A : Type}.
Variable f : flags.

Lemma strip_sound (l s c rest : string) :
  strip f l s = Some (c, rest) -> s = c ++ rest /\ lit_eqb f l c = true.
Proof.
  revert s c rest; induction l as [|a l IH]; intros s c rest H; simpl in H.
  - injection H as <- <-. now split.
  - destruct s as [|b s]; [discriminate|].
    destruct (chr_eq f a b) eqn:E; [|discriminate].
    destruct (strip f l s) as [[c' rest']|] eqn:S; [|discriminate].
    injection H as <- <-. apply IH in S as [-> Hl].
    simpl. now rewrite E, Hl.
Qed.

Lemma greedy_sound (cs : charset) (s : string) (k : @cont A) (m : A) :
  greedy f cs s k = Some m ->
  exists c rest,
    s = c ++ rest /\ Str.forallb (in_class f cs) c = true /\ k c rest = Some m.
Proof.
  revert k; induction s as [|x s IH]; intros k H; simpl in H.
  - now exists EmptyString, EmptyString.
  - destruct (in_class f cs x) eqn:E.
    + unfold orelse in H.
      destruct (greedy f cs s (fun t rest => k (String x t) rest)) eqn:G.
      * injection H as ->. apply IH in G as (c & rest & -> & Hc & Hk).
        exists (String x c), rest. simpl. now rewrite E, Hc.
      * now exists EmptyString, (String x s).
    + now exists EmptyString, (String x s).
Qed.

Lemma lazy_sound (cs : charset) (s : string) (k : @cont A) (m : A) :
  lazy f cs s k = Some m ->
  exists c rest,
    s = c ++ rest /\ Str.forallb (in_class f cs) c = true /\ k c rest = Some m.
Proof.
  revert k; induction s as [|x s IH]; intros k H; simpl in H; unfold orelse in H.
  - destruct (k EmptyString EmptyString) eqn:K; [|discriminate].
    injection H as ->. now exists EmptyString, EmptyString.
  - destruct (k EmptyString (String x s)) eqn:K.
    + injection H as ->. now exists EmptyString, (String x s).
    + destruct (in_class f cs x) eqn:E; [|discriminate].
      apply IH in H as (c & rest & -> & Hc & Hk).
      exists (String x c), rest. simpl. now rewrite E, Hc.
Qed.

Lemma run_sound (r : regex) :
  forall pos s g (k : string -> string -> groups -> option A) m,
    run f r pos s g k = Some m ->
    exists c rest g',
      s = c ++ rest /\ denote f r pos g c g' /\ k c rest g' = Some m.
Proof.
  induction r as [ | l | cs | cs | cs | cs | r IH | r1 IH1 r2 IH2
                   | r1 IH1 r2 IH2 | n r IH ];
    intros pos s g k m H; simpl in H.
  - destruct (Nat.eqb_spec pos 0) as [->|]; [|discriminate].
    exists EmptyString, s, g. simpl. auto.
  - destruct (strip f l s) as [[c rest]|] eqn:S; [|discriminate].
    apply strip_sound in S as [-> Hl]. exists c, rest, g. simpl. auto.
  - destruct s as [|x s]; [discriminate|].
    destruct (in_class f cs x) eqn:E; [|discriminate].
    exists (String x EmptyString), s, g. simpl. eauto 6.
  - apply greedy_sound in H as (c & rest & -> & Hc & Hk).
    exists c, rest, g. simpl. auto.
  - destruct s as [|x s]; [discriminate|].
    destruct (in_class f cs x) eqn:E; [|discriminate].
    apply greedy_sound in H as (c & rest & -> & Hc & Hk).
    exists (String x c), rest, g. simpl. rewrite E, Hc.
    repeat split; auto. discriminate.
  - apply lazy_sound in H as (c & rest & -> & Hc & Hk).
    exists c, rest, g. simpl. auto.
  - unfold orelse in H. destruct (run f r pos s g k) eqn:R.
    + injection H as ->. apply IH in R as (c & rest & g' & -> & Hd & Hk).
      exists c, rest, g'. simpl. auto.
    + exists EmptyString, s, g. simpl. auto.
  - apply IH1 in H as (c1 & s1 & g1 & -> & Hd1 & H).
    apply IH2 in H as (c2 & s2 & g2 & -> & Hd2 & H).
    exists (c1 ++ c2), s2, g2. rewrite append_assoc. simpl.
    split; [reflexivity|]. split; [|assumption].
    now exists c1, c2, g1.
  - unfold orelse in H. destruct (run f r1 pos s g k) eqn:R.
    + injection H as ->. apply IH1 in R as (c & rest & g' & -> & Hd & Hk).
      exists c, rest, g'. simpl. auto.
    + apply IH2 in H as (c & rest & g' & -> & Hd & Hk).
      exists c, rest, g'. simpl. auto.
  - apply IH in H as (c & rest & g' & -> & Hd & Hk).
    exists c, rest, (set_group n c g'). simpl. eauto.
Qed.
End Soundness.

Lemma attempt_sound (f : flags) (r : regex) (pos : nat) (s : string) (m : Match) :
  attempt f r pos s = Some m ->
  exists rest,
    s = m_text m ++ rest
    /\ denote f r pos (repeat None (ngroups r)) (m_text m) (m_groups m).
Proof.
  unfold attempt. intros H.
  apply run_sound in H as (c & rest & g' & -> & Hd & Hk).
  injection Hk as <-. simpl. now exists rest.
Qed.

(** A successful search is a successful attempt at some offset. *)
Lemma search_from_sound (f : flags) (r : regex) (s : string) :
  forall pos m,
    search_from f r pos s = Some m ->
    exists pre suf,
      s = pre ++ suf /\ attempt f r (pos + length pre) suf = Some m.
Proof.
  induction s as [|x s IH]; intros pos m H; simpl in H.
  - destruct (attempt f r pos EmptyString) eqn:E; [|discriminate].
    injection H as ->. exists EmptyString, EmptyString. simpl.
    now rewrite Nat.add_0_r.
  - destruct (attempt f r pos (String x s)) eqn:E.
    + injection H as ->. exists EmptyString, (String x s). simpl.
      now rewrite Nat.add_0_r.
    + apply IH in H as (pre & suf & -> & H).
      exists (String x pre), suf. simpl. now rewrite Nat.add_succ_r.
Qed.

(* ================================================================= *)
(** ** The patterns of the extractor *)

(** Take a [denote] hypothesis of a concrete pattern apart. *)
Ltac unpack :=
  repeat match goal with
         | H : exists _, _ |- _ => destruct H
         | H : _ /\ _ |- _ => destruct H
         | H : _ \/ _ |- _ => destruct H
         end;
  subst.

(** Read the groups of the match off the unpacked hypothesis. *)
Ltac captured :=
  match goal with
  | H : m_groups _ = _ |- _ => cbn [set_group] in H; rewrite H
  end.

Lemma usage_pattern_captures : captures_value usage_pattern.
Proof.
  intros f pos s m H. apply attempt_sound in H as [rest [_ H]].
  unfold usage_pattern, value_group, paren_digits in H.
  cbn [denote ngroups Nat.max repeat] in H. unpack; cbn [set_group]; eauto.
Qed.

Lemma strategy_A_captures : captures_value strategy_A.
Proof.
  intros f pos s m H. apply attempt_sound in H as [rest [_ H]].
  unfold strategy_A, value_group, paren_digits in H.
  cbn [denote ngroups Nat.max repeat] in H. unpack; cbn [set_group]; eauto.
Qed.

Lemma strategy_B_captures : captures_value strategy_B.
Proof.
  intros f pos s m H. apply attempt_sound in H as [rest [_ H]].
  unfold strategy_B, value_group in H.
  cbn [denote ngroups Nat.max repeat] in H. unpack; cbn [set_group]; eauto.
Qed.

Lemma strategy_C_captures : captures_value strategy_C.
Proof.
  intros f pos s m H. apply attempt_sound in H as [rest [_ H]].
  unfold strategy_C, value_group, paren_digits in H.
  cbn [denote ngroups Nat.max repeat] in H. unpack; cbn [set_group]; eauto.
Qed.

Lemma alloc_patterns_capture (p : regex) :
  In p alloc_patterns -> captures_value p.
Proof.
  intros [<- | [<- | [<- | []]]];
    auto using strategy_A_captures, strategy_B_captures, strategy_C_captures.
Qed.

Lemma search_group1 (r : regex) (text : string) (f : flags) (m : Match) :
  captures_value r ->
  re_search r text f = Some m ->
  exists t, group m 1 = Ok (Some t) /\ t <> EmptyString.
Proof.
  intros Hr H. apply search_from_sound in H as (pre & suf & _ & H).
  apply Hr in H as (t & Hg & Ht). exists t. unfold group. now rewrite Hg.
Qed.

(* ================================================================= *)
(** ** [text_to_int] *)

Lemma dict_get_in {V} (d : Dict.t V) (k : string) (v : V) :
  Dict.get d k = Some v -> In (k, v) d.
Proof.
  induction d as [|[k' v'] d IH]; simpl; [discriminate|].
  destruct (String.eqb_spec k' k) as [->|].
  - intros [= ->]. now left.
  - intros H. right. auto.
Qed.

Lemma text_to_int_total (t : string) : exists v, text_to_int (Some t) = Ok v.
Proof. unfold text_to_int. eauto. Qed.

Lemma text_to_int_range (o : option string) (v : Z) :
  text_to_int o = Ok v -> (0 <= v <= 14)%Z.
Proof.
  destruct o as [t|]; unfold text_to_int; [|discriminate].
  destruct (Dict.get mapping (Str.lower (sub_parens t))) as [x|] eqn:E.
  - intros [= <-]. apply dict_get_in in E. unfold mapping in E. simpl in E.
    repeat (destruct E as [E|E]; [injection E as _ <-; lia|]).
    contradiction.
  - intros [= <-]. lia.
Qed.

(* ================================================================= *)
(** ** The loop over the allocation strategies *)

Lemma normalizes_to_functional (p : regex) (text : string) (v w : Z) :
  normalizes_to p text v -> normalizes_to p text w -> v = w.
Proof.
  intros (m & t & Hs & Hg & Hv) (m' & t' & Hs' & Hg' & Hw).
  congruence.
Qed.

Lemma alloc_loop_spec (text : string) (total : Z) :
  forall ps,
    (forall p, In p ps -> captures_value p) ->
    (exists i p v,
        nth_error ps i = Some p
        /\ normalizes_to p text v /\ (0 < v)%Z
        /\ (forall j q, j < i -> nth_error ps j = Some q ->
                        ~ yields_positive q text)
        /\ alloc_loop ps text total = Ok v)
    \/ ((forall q, In q ps -> ~ yields_positive q text)
        /\ alloc_loop ps text total = Ok total).
Proof.
  induction ps as [|p ps IH]; intros Hps.
  - right. split; [intros q []|reflexivity].
  - assert (IH' := IH (fun q Hq => Hps q (or_intror Hq))). clear IH.
    cbn [alloc_loop].
    assert (Hskip : ~ yields_positive p text ->
      (exists i p0 v,
          nth_error (p :: ps) i = Some p0
          /\ normalizes_to p0 text v /\ (0 < v)%Z
          /\ (forall j q, j < i -> nth_error (p :: ps) j = Some q ->
                          ~ yields_positive q text)
          /\ alloc_loop ps text total = Ok v)
      \/ ((forall q, In q (p :: ps) -> ~ yields_positive q text)
          /\ alloc_loop ps text total = Ok total)).
    { intros Hp. destruct IH' as [(i & q & v & Hi & Hn & Hv & Hbefore & Hr) | [Hnone Hr]].
      - left. exists (S i), q, v. repeat split; auto.
        intros [|j] q' Hj Hq'; simpl in Hq'.
        + injection Hq' as <-. exact Hp.
        + apply (Hbefore j); [lia | assumption].
      - right. split; [|assumption].
        intros q [<- | Hq]; auto. }
    destruct (re_search p text I_S) as [m|] eqn:Hs.
    + destruct (search_group1 p text I_S m (Hps p (or_introl eq_refl)) Hs)
        as (t & Hg & _).
      rewrite Hg. cbn [bind].
      destruct (text_to_int_total t) as [v Hv]. rewrite Hv. cbn [bind].
      assert (Hn : normalizes_to p text v) by (now exists m, t).
      destruct (v >? 0)%Z eqn:Hpos.
      * left. exists 0, p, v. repeat split; auto; try lia.
      * apply Hskip. intros (w & Hw & Hw0).
        rewrite (normalizes_to_functional _ _ _ _ Hw Hn) in Hw0. lia.
    + apply Hskip. intros (w & (m & t & Hm & _) & _). congruence.
Qed.

Lemma alloc_loop_range (text : string) :
  forall ps,
    (forall p, In p ps -> captures_value p) ->
    exists v, alloc_loop ps text 0 = Ok v /\ (0 <= v <= 14)%Z.
Proof.
  intros ps Hps.
  destruct (alloc_loop_spec text 0 ps Hps)
    as [(i & p & v & _ & (m & t & _ & _ & Hv) & _ & _ & Hr) | [_ Hr]].
  - exists v. split; [assumption|]. eapply text_to_int_range; eauto.
  - exists 0%Z. split; [assumption | lia].
Qed.

(** The extractor never raises; its fields are those of the script. *)
Lemma extract_tyre_data_ok (text : string) :
  exists mandatory total,
    (match re_search usage_pattern text I_S with
     | Some m => g <- group m 1 ;; text_to_int g
     | None => Ok 0%Z
     end) = Ok mandatory
    /\ (0 <= mandatory <= 14)%Z
    /\ alloc_loop alloc_patterns text 0 = Ok total
    /\ (0 <= total <= 14)%Z
    /\ extract_tyre_data text =
       Ok {| mandatory_dry_compounds := mandatory;
             total_sets_allocated := total;
             wet_race_exception :=
               match re_search wet_pattern text I_ with
               | Some _ => true
               | None => false
               end;
             q2_start_tyre_rule :=
               match re_search q2_pattern text I_S with
               | Some _ => true
               | None => false
               end |}.
Proof.
  destruct (alloc_loop_range text alloc_patterns alloc_patterns_capture)
    as (total & Ht & Htr).
  assert (Hm : exists mandatory,
             (match re_search usage_pattern text I_S with
              | Some m => g <- group m 1 ;; text_to_int g
              | None => Ok 0%Z
              end) = Ok mandatory /\ (0 <= mandatory <= 14)%Z).
  { destruct (re_search usage_pattern text I_S) as [m|] eqn:Hs.
    - destruct (search_group1 _ _ _ _ usage_pattern_captures Hs) as (t & Hg & _).
      rewrite Hg. cbn [bind]. destruct (text_to_int_total t) as [v Hv].
      exists v. split; [assumption|]. eapply text_to_int_range; eauto.
    - exists 0%Z. split; [reflexivity | lia]. }
  destruct Hm as (mandatory & Hm & Hmr).
  exists mandatory, total. repeat split; try tauto; try lia.
  unfold extract_tyre_data. rewrite Hm. cbn [bind]. rewrite Ht. reflexivity.
Qed.

(* ================================================================= *)
(** ** Dictionaries: basic facts *)

Lemma dict_get_none {V} (d : Dict.t V) (k : string) :
  Dict.get d k = None <-> ~ In k (Dict.keys d).
Proof.
  induction d as [|[k' v'] d IH]; simpl.
  - tauto.
  - destruct (String.eqb_spec k' k) as [->|Hne].
    + split; [discriminate | intros H; exfalso; apply H; now left].
    + rewrite IH. split.
      * intros H [E|E]; auto.
      * intros H E. apply H. now right.
Qed.

Lemma dict_mem_true {V} (d : Dict.t V) (k : string) :
  Dict.mem d k = true <-> In k (Dict.keys d).
Proof.
  unfold Dict.mem. pose proof (dict_get_none d k) as H.
  destruct (Dict.get d k) as [v|].
  - split; [intros _|reflexivity].
    destruct (in_dec string_dec k (Dict.keys d)) as [Hin|Hout]; [assumption|].
    apply H in Hout. discriminate.
  - split; [discriminate|]. intros Hin. exfalso. now apply (proj1 H).
Qed.

Lemma dict_get_set_same {V} (d : Dict.t V) (k : string) (v : V) :
  Dict.get (Dict.set d k v) k = Some v.
Proof.
  induction d as [|[k' v'] d IH]; simpl.
  - now rewrite String.eqb_refl.
  - destruct (String.eqb_spec k' k) as [->|Hne]; simpl.
    + now rewrite String.eqb_refl.
    + destruct (String.eqb_spec k' k); [contradiction | assumption].
Qed.

Lemma dict_get_set_other {V} (d : Dict.t V) (k k' : string) (v : V) :
  k <> k' -> Dict.get (Dict.set d k v) k' = Dict.get d k'.
Proof.
  intros Hne. induction d as [|[k0 v0] d IH]; simpl.
  - destruct (String.eqb_spec k k'); [contradiction | reflexivity].
  - destruct (String.eqb_spec k0 k) as [->|Hk]; simpl.
    + destruct (String.eqb_spec k k'); [contradiction | reflexivity].
    + now rewrite IH.
Qed.

Lemma dict_keys_set {V} (d : Dict.t V) (k k' : string) (v : V) :
  In k' (Dict.keys (Dict.set d k v)) <-> k' = k \/ In k' (Dict.keys d).
Proof.
  induction d as [|[k0 v0] d IH]; simpl.
  - intuition.
  - destruct (String.eqb_spec k0 k) as [->|Hk]; simpl.
    + intuition.
    + rewrite IH. intuition.
Qed.

(* ================================================================= *)
(** ** The heading patterns *)

Lemma lit_eqb_nonempty (f : flags) (a : ascii) (l c : string) :
  lit_eqb f (String a l) c = true -> c <> EmptyString.
Proof. destruct c; simpl; [discriminate | congruence]. Qed.

Lemma append_nonempty_l (a b : string) :
  a <> EmptyString -> a ++ b <> EmptyString.
Proof. destruct a; simpl; congruence. Qed.

(** A match of the sectioned pattern captures a non-empty group 1. *)
Lemma sectioned_groups (line : string) (m : Match) :
  re_match sectioned_pattern line I_ = Some m ->
  exists t, m_groups m = [Some t] /\ t <> EmptyString.
Proof.
  unfold re_match. intros H. apply attempt_sound in H as [rest [_ H]].
  unfold sectioned_pattern in H.
  cbn [denote ngroups Nat.max repeat] in H. unpack; captured;
    (eexists; split; [reflexivity|]);
    apply append_nonempty_l; eapply lit_eqb_nonempty; eassumption.
Qed.

(** A match of the numeric pattern captures digits in exactly one of its
    two groups. *)
Lemma numeric_groups (line : string) (m : Match) :
  re_match numeric_pattern line I_ = Some m ->
  exists d,
    digits d /\ d <> EmptyString
    /\ (m_groups m = [Some d; None] \/ m_groups m = [None; Some d]).
Proof.
  unfold re_match. intros H. apply attempt_sound in H as [rest [_ H]].
  unfold numeric_pattern in H.
  cbn [denote ngroups Nat.max repeat] in H. unpack; captured;
    eexists; (split; [eassumption|]); (split; [assumption|]); auto.
Qed.

(** On a heading line the identifier is computed without an exception and
    is not empty; it is the first non-empty capture group. *)
Lemma new_key_of_heading (year : Z) (line : string) (m : Match) :
  re_match (article_pattern year) line I_ = Some m ->
  exists key,
    key <> EmptyString
    /\ new_key_of m = Ok (Some key)
    /\ heading_key (article_pattern year) line = Some key.
Proof.
  unfold article_pattern, heading_key. destruct (year =? 2026)%Z; intros H; rewrite H.
  - apply sectioned_groups in H as (t & Hg & Ht). exists t.
    unfold new_key_of, group. rewrite Hg. cbn.
    destruct t; [contradiction|]. cbn. auto.
  - apply numeric_groups in H as (d & _ & Hd & [Hg | Hg]); exists d;
      unfold new_key_of, group; rewrite Hg; cbn;
      (destruct d; [contradiction|]); cbn; auto.
Qed.

Lemma heading_key_none (pat : regex) (line : string) :
  re_match pat line I_ = None -> heading_key pat line = None.
Proof. unfold heading_key. now intros ->. Qed.

Lemma heading_key_nonempty (year : Z) (line key : string) :
  heading_key (article_pattern year) line = Some key -> key <> EmptyString.
Proof.
  intros H. destruct (re_match (article_pattern year) line I_) as [m|] eqn:E.
  - apply new_key_of_heading in E as (k & Hk & _ & Hh). congruence.
  - apply heading_key_none in E. congruence.
Qed.

(* ================================================================= *)
(** ** The segmenter *)

Lemma attributedb_spec (key : string) (tagged : list (option string * string)) :
  attributedb key tagged = true <-> attributed_to key tagged.
Proof.
  unfold attributedb, attributed_to. rewrite existsb_exists. split.
  - intros [[[k|] l] [Hin Hk]]; simpl in Hk; [|discriminate].
    apply String.eqb_eq in Hk as ->. now exists l.
  - intros [l Hin]. exists (Some key, l). split; [assumption|].
    simpl. apply String.eqb_refl.
Qed.

(** Adding a line to the article [key], created empty when it is new. *)
Lemma accumulate (arts : Dict.t string) (key line : string) :
  exists arts1,
    append_line (if negb (Dict.mem arts key)
                 then Dict.set arts key EmptyString else arts) key line
    = Ok arts1
    /\ (forall k,
           Dict.get arts1 k =
           if String.eqb key k
           then Some (text_so_far arts k ++ line ++ Str.newline)
           else Dict.get arts k)
    /\ (forall k, In k (Dict.keys arts1) <-> k = key \/ In k (Dict.keys arts)).
Proof.
  unfold append_line, Dict.getitem, Dict.mem, text_so_far.
  destruct (Dict.get arts key) as [old|] eqn:E; cbn [negb].
  - rewrite E. cbn [bind]. eexists. split; [reflexivity|]. split.
    + intros k. destruct (String.eqb_spec key k) as [<-|Hne].
      * now rewrite dict_get_set_same, E.
      * now apply dict_get_set_other.
    + intros k. rewrite dict_keys_set. reflexivity.
  - rewrite dict_get_set_same. cbn [bind]. eexists. split; [reflexivity|]. split.
    + intros k. destruct (String.eqb_spec key k) as [<-|Hne].
      * now rewrite dict_get_set_same, E.
      * now rewrite !dict_get_set_other.
    + intros k. rewrite !dict_keys_set. tauto.
Qed.

(** One line: the loop body never raises, keeps the invariant, and adds
    the line to the article the line is attributed to. *)
Lemma line_step_effect (year : Z) (st : segmenter) (line : string) :
  segmenter_ok st ->
  exists st1,
    line_step (article_pattern year) st line = Ok st1
    /\ segmenter_ok st1
    /\ current_article st1 =
       match heading_key (article_pattern year) line with
       | Some k => Some k
       | None => current_article st
       end
    /\ forall k,
        Dict.get (articles st1) k =
        match current_article st1 with
        | Some key =>
            if String.eqb key k
            then Some (text_so_far (articles st) k ++ line ++ Str.newline)
            else Dict.get (articles st) k
        | None => Dict.get (articles st) k
        end.
Proof.
  intros [Hkeys Hcur]. unfold line_step.
  destruct (re_match (article_pattern year) line I_) as [m|] eqn:E.
  - apply new_key_of_heading in E as (key & Hkey & -> & ->). cbn [bind].
    apply is_empty_false in Hkey as Hemp. rewrite Hemp. cbn [negb].
    destruct (accumulate (articles st) key line) as (arts1 & -> & Hget & Hin).
    cbn [bind]. eexists. split; [reflexivity|]. cbn [articles current_article].
    repeat split; try assumption.
    + intros k Hk. apply Hin in Hk as [-> | Hk]; auto.
    + intros k [= <-]. apply Hin. now left.
  - rewrite (heading_key_none _ _ E).
    destruct (current_article st) as [key|] eqn:C.
    + assert (Hin0 := Hcur key eq_refl).
      assert (Hkey := Hkeys key Hin0).
      apply is_empty_false in Hkey as Hemp. rewrite Hemp. cbn [negb].
      destruct (accumulate (articles st) key line) as (arts1 & Ha & Hget & Hin).
      apply dict_mem_true in Hin0. rewrite Hin0 in Ha. cbn [negb] in Ha.
      rewrite Ha. cbn [bind]. eexists. split; [reflexivity|].
      cbn [articles current_article]. repeat split; try assumption.
      * intros k Hk. apply Hin in Hk as [-> | Hk]; auto.
      * intros k [= <-]. apply Hin. now left.
    + exists st. rewrite C. repeat split; auto. congruence.
Qed.

Lemma lines_loop_app (pat : regex) (a b : list string) :
  forall st,
    lines_loop pat st (a ++ b)%list =
    (st' <- lines_loop pat st a ;; lines_loop pat st' b).
Proof.
  induction a as [|l a IH]; intros st; simpl; [reflexivity|].
  destruct (line_step pat st l); simpl; auto.
Qed.

(** The whole loop: it never raises, and every article holds the lines
    attributed to it, in order, after what it held before. *)
Lemma lines_loop_accumulates (year : Z) (lines : list string) :
  forall st,
    segmenter_ok st ->
    exists st',
      lines_loop (article_pattern year) st lines = Ok st'
      /\ segmenter_ok st'
      /\ forall k,
          let tagged :=
            attribute (article_pattern year) (current_article st) lines in
          Dict.get (articles st') k =
          if attributedb k tagged || Dict.mem (articles st) k
          then Some (text_so_far (articles st) k ++ text_of k tagged)
          else None.
Proof.
  induction lines as [|l rest IH]; intros st Hok.
  - exists st. split; [reflexivity|]. split; [assumption|].
    intros k. cbn. unfold Dict.mem, text_so_far.
    destruct (Dict.get (articles st) k); [now rewrite append_nil_r | reflexivity].
  - destruct (line_step_effect year st l Hok) as (st1 & Hstep & Hok1 & Hcur & Hget).
    destruct (IH st1 Hok1) as (st' & Hloop & Hok' & Hspec).
    exists st'. cbn [lines_loop]. rewrite Hstep. cbn [bind].
    split; [assumption|]. split; [assumption|].
    intros k. cbn zeta in Hspec |- *. rewrite Hspec. clear Hspec.
    cbn [attribute]. rewrite <- Hcur.
    cbn [attributedb existsb fst text_of].
    fold (attributedb k (attribute (article_pattern year) (current_article st1) rest)).
    unfold Dict.mem at 1. unfold text_so_far at 1. rewrite (Hget k).
    destruct (current_article st1) as [key|].
    + destruct (String.eqb_spec key k) as [->|Hne].
      * rewrite orb_true_r. cbn [orb]. now rewrite !append_assoc.
      * cbn [orb]. reflexivity.
    + cbn [orb]. reflexivity.
Qed.

(** Lines that are no heading, before any heading, leave no trace. *)
Lemma lines_loop_skip (pat : regex) (pre rest : list string) :
  (forall l, In l pre -> re_match pat l I_ = None) ->
  lines_loop pat segmenter_init (pre ++ rest)%list
  = lines_loop pat segmenter_init rest.
Proof.
  induction pre as [|l pre IH]; intros H; [reflexivity|].
  cbn [app lines_loop]. unfold line_step at 1.
  rewrite (H l (or_introl eq_refl)). cbn [segmenter_init current_article bind].
  apply IH. intros l' Hl'. apply H. now right.
Qed.

Lemma page_eq_dec (a b : page) : {a = b} + {a <> b}.
Proof. repeat decide equality. Qed.

Lemma segmenter_init_ok : segmenter_ok segmenter_init.
Proof. split; [intros k [] | intros k; discriminate]. Qed.

(** The loop over pages is the loop over the document's lines. *)
Lemma pages_loop_lines (pat : regex) (pages : list page) :
  readable pages ->
  forall st,
    pages_loop pat st pages = lines_loop pat st (doc_lines pages).
Proof.
  unfold readable. induction pages as [|p pages IH]; intros Hr st; [reflexivity|].
  assert (Hr' : ~ In PageFails pages) by (intros H; apply Hr; now right).
  destruct p as [[text|]|].
  - cbn [pages_loop page_step doc_lines]. rewrite lines_loop_app.
    destruct (Str.is_empty text); cbn [lines_loop bind]; [now apply IH|].
    destruct (lines_loop pat st (Str.split_lines text)); cbn [bind]; auto.
  - cbn [pages_loop page_step doc_lines bind]. now apply IH.
  - exfalso. apply Hr. now left.
Qed.

(** A page that cannot be read makes the loop raise, whatever precedes. *)
Lemma pages_loop_fails (year : Z) (pages : list page) :
  In PageFails pages ->
  forall st,
    segmenter_ok st ->
    pages_loop (article_pattern year) st pages = Raise ReadError.
Proof.
  induction pages as [|p pages IH]; intros Hin st Hok; [contradiction|].
  destruct p as [[text|]|].
  - destruct Hin as [Hin|Hin]; [discriminate|].
    cbn [pages_loop page_step]. destruct (Str.is_empty text); cbn [bind]; auto.
    destruct (lines_loop_accumulates year (Str.split_lines text) st Hok)
      as (st' & -> & Hok' & _).
    cbn [bind]. auto.
  - destruct Hin as [Hin|Hin]; [discriminate|]. cbn [pages_loop page_step bind]. auto.
  - reflexivity.
Qed.

Lemma read_articles_fails (year : Z) (doc : pdf) :
  read_fails doc -> read_articles (article_pattern year) doc = Raise ReadError.
Proof.
  intros [-> | (pages & -> & Hin)]; [reflexivity|].
  unfold read_articles.
  now rewrite (pages_loop_fails year pages Hin _ segmenter_init_ok).
Qed.

(** A document that can be read is segmented by the loop over its lines. *)
Lemma read_articles_lines (year : Z) (pages : list page) :
  readable pages ->
  exists st,
    lines_loop (article_pattern year) segmenter_init (doc_lines pages) = Ok st
    /\ segmenter_ok st
    /\ read_articles (article_pattern year) (Opened pages) = Ok (articles st).
Proof.
  intros Hr. unfold read_articles. rewrite (pages_loop_lines _ _ Hr).
  destruct (lines_loop_accumulates year (doc_lines pages) _ segmenter_init_ok)
    as (st & Hl & Hok & _).
  exists st. rewrite Hl. auto.
Qed.

(** Whatever the document, the returned collection has no empty key, and
    nothing is raised to the caller. *)
Lemma parse_regulations_keys (fs : string -> pdf) (year : Z) (path : string) :
  forall k,
    In k (Dict.keys (fst (parse_regulations fs year path))) -> k <> EmptyString.
Proof.
  intros k. unfold parse_regulations, read_articles.
  destruct (fs path) as [|pages]; [intros []|].
  destruct (pages_loop (article_pattern year) segmenter_init pages) as [st|e] eqn:E;
    cbn [bind fst]; [|intros []].
  destruct (in_dec page_eq_dec PageFails pages) as [Hin|Hout].
  - rewrite (pages_loop_fails year pages Hin _ segmenter_init_ok) in E. discriminate.
  - rewrite (pages_loop_lines _ _ Hout) in E.
    destruct (lines_loop_accumulates year (doc_lines pages) _ segmenter_init_ok)
      as (st' & Hl & [Hkeys _] & _).
    rewrite Hl in E. injection E as <-. apply Hkeys.
Qed.

(* ================================================================= *)
(** ** The locator *)

Lemma keyword_test (content : string) :
  existsb (fun k => Str.contains k (Str.lower (Str.take 1000 content))) keywords
  = true <-> tyre_header content.
Proof.
  unfold tyre_header. rewrite existsb_exists. fold keywords.
  split; intros [k [Hk Hc]]; exists k; (split; [assumption|]);
    now apply contains_spec.
Qed.

Lemma find_tyre_article_id_some (arts : Dict.t string) (id : string) :
  find_tyre_article_id arts = Some id <->
  exists before content after,
    arts = (before ++ (id, content) :: after)%list
    /\ tyre_header content
    /\ forall k c, In (k, c) before -> ~ tyre_header c.
Proof.
  induction arts as [|[k c] arts IH]; cbn [find_tyre_article_id].
  - split; [discriminate|]. intros (before & content & after & H & _).
    destruct before; discriminate.
  - destruct (existsb _ keywords) eqn:E.
    + apply keyword_test in E. split.
      * intros [= <-]. exists [], c, arts. repeat split; auto; intros ? ? [].
      * intros (before & content & after & H & Hc & Hb).
        destruct before as [|[k' c'] before]; cbn [app] in H.
        -- now injection H as -> _ _.
        -- injection H as <- <- _. exfalso. apply (Hb k c); [now left | assumption].
    + assert (Hn : ~ tyre_header c).
      { intros H. apply keyword_test in H. congruence. }
      rewrite IH. split.
      * intros (before & content & after & -> & Hc & Hb).
        exists ((k, c) :: before), content, after. repeat split; auto.
        intros k' c' [[= <- <-] | Hin]; eauto.
      * intros (before & content & after & H & Hc & Hb).
        destruct before as [|[k' c'] before]; cbn [app] in H.
        -- injection H as _ <- _. contradiction.
        -- injection H as _ _ ->. exists before, content, after.
           repeat split; auto. intros k0 c0 Hin. apply (Hb k0 c0). now right.
Qed.

Lemma find_tyre_article_id_none (arts : Dict.t string) :
  find_tyre_article_id arts = None <->
  forall k c, In (k, c) arts -> ~ tyre_header c.
Proof.
  induction arts as [|[k c] arts IH]; cbn [find_tyre_article_id].
  - split; [intros _ ? ? [] | reflexivity].
  - destruct (existsb _ keywords) eqn:E.
    + apply keyword_test in E. split; [discriminate|].
      intros H. exfalso. apply (H k c); [now left | assumption].
    + assert (Hn : ~ tyre_header c).
      { intros H. apply keyword_test in H. congruence. }
      rewrite IH. split.
      * intros H k' c' [[= <- <-] | Hin]; eauto.
      * intros H k' c' Hin. apply (H k' c'). now right.
Qed.

Lemma find_tyre_article_id_key (arts : Dict.t string) (id : string) :
  find_tyre_article_id arts = Some id -> In id (Dict.keys arts).
Proof.
  intros H. apply find_tyre_article_id_some in H as (b & c & a & -> & _).
  unfold Dict.keys. rewrite map_app. apply in_or_app. right. now left.
Qed.

(* ================================================================= *)
(** ** The aggregation loop *)

Lemma of_int_inj (a b : Z) : Str.of_int a = Str.of_int b -> a = b.
Proof.
  unfold Str.of_int. intros H. apply DecimalZ.to_int_inj.
  assert (Hn : forall z, Z.to_int z <> Decimal.Pos Decimal.Nil
                         /\ Z.to_int z <> Decimal.Neg Decimal.Nil).
  { intros [|p|p]; cbn; split; try discriminate;
      intros [= E]; now apply DecimalPos.Unsigned.to_uint_nonnil in E. }
  apply (f_equal NilZero.int_of_string) in H.
  rewrite !NilZero.isi in H by apply Hn. congruence.
Qed.

(** What one round of the loop does to the database and the log. *)
Lemma year_step_spec (fs : string -> pdf) (db : database) (year : Z)
      (path : string) :
  let regs := fst (parse_regulations fs year path) in
  let out := snd (parse_regulations fs year path) in
  match find_tyre_article_id regs with
  | Some id =>
      exists text d,
        Dict.get regs id = Some text
        /\ extract_tyre_data text = Ok d
        /\ forall log,
            year_step fs (db, log) (year, path) =
            Ok (Dict.set db (Str.of_int year)
                         {| fields := d; source_article := id |},
                (log ++ out
                 ++ [MsgFound year id;
                     if (total_sets_allocated d =? 0)%Z then MsgWarning
                     else MsgExtracted
                            {| fields := d; source_article := id |}])%list)
  | None =>
      forall log,
        year_step fs (db, log) (year, path) =
        Ok (db, (log ++ out ++ [MsgNotIdentified year])%list)
  end.
Proof.
  cbn zeta. unfold year_step.
  pose proof (parse_regulations_keys fs year path) as Hkeys.
  destruct (parse_regulations fs year path) as [regs out]. cbn [fst snd] in *.
  destruct (find_tyre_article_id regs) as [id|] eqn:F; [|reflexivity].
  apply find_tyre_article_id_key in F.
  assert (Hid := Hkeys id F). apply is_empty_false in Hid.
  destruct (Dict.get regs id) as [text|] eqn:G.
  - destruct (extract_tyre_data_ok text) as (mn & tot & _ & _ & _ & _ & Hx).
    eexists text, _. split; [reflexivity|]. split; [exact Hx|].
    intros log. rewrite Hid. cbn [negb]. unfold Dict.getitem. rewrite G.
    cbn [bind]. rewrite Hx. reflexivity.
  - apply dict_get_none in G. contradiction.
Qed.

(** A round never raises, adds to the log, and touches at most the
    database entry of its year. *)
Lemma year_step_total (fs : string -> pdf) (db : database) (entry : Z * string) :
  exists db' out,
    (forall log, year_step fs (db, log) entry = Ok (db', (log ++ out)%list))
    /\ (forall k, k <> Str.of_int (fst entry) -> Dict.get db' k = Dict.get db k).
Proof.
  destruct entry as [year path].
  pose proof (year_step_spec fs db year path) as H. cbn zeta in H.
  destruct (find_tyre_article_id (fst (parse_regulations fs year path))) as [id|].
  - destruct H as (text & d & _ & _ & H). eexists _, _. split.
    + intros log. rewrite H. reflexivity.
    + intros k Hk. cbn [fst] in Hk. apply dict_get_set_other. congruence.
  - eexists _, _. split; [intros log; now rewrite H | reflexivity].
Qed.

Lemma years_loop_total (fs : string -> pdf) (files : list (Z * string)) :
  forall db,
  exists db' out,
    (forall log, years_loop fs (db, log) files = Ok (db', (log ++ out)%list))
    /\ (forall k, (forall y, In y (years_of files) -> k <> Str.of_int y) ->
                  Dict.get db' k = Dict.get db k).
Proof.
  induction files as [|entry files IH]; intros db.
  - exists db, []. split; [intros log; cbn; now rewrite app_nil_r | reflexivity].
  - destruct (year_step_total fs db entry) as (db1 & out1 & Hstep & Hget1).
    destruct (IH db1) as (db2 & out2 & Hloop & Hget2).
    exists db2, (out1 ++ out2)%list. split.
    + intros log. cbn [years_loop]. rewrite Hstep. cbn [bind].
      rewrite Hloop. now rewrite app_assoc.
    + intros k Hk. rewrite Hget2, Hget1; auto.
      * apply Hk. now left.
      * intros y Hy. apply Hk. now right.
Qed.

Lemma years_loop_app (fs : string -> pdf) (a b : list (Z * string)) :
  forall st,
    years_loop fs st (a ++ b)%list =
    (st' <- years_loop fs st a ;; years_loop fs st' b).
Proof.
  induction a as [|e a IH]; intros st; cbn [app years_loop bind]; [reflexivity|].
  destruct (year_step fs st e); cbn [bind]; auto.
Qed.

(* ================================================================= *)
(** ** Searching past a prefix *)

Lemma search_from_skip (f : flags) (r : regex) (pre s : string) :
  forall pos,
    no_match_before f r pos (length pre) (pre ++ s) = true ->
    search_from f r pos (pre ++ s) = search_from f r (pos + length pre) s.
Proof.
  induction pre as [|x pre IH]; intros pos H.
  - cbn. now rewrite Nat.add_0_r.
  - cbn [length append no_match_before] in H.
    cbn [append search_from length].
    destruct (attempt f r pos (String x (pre ++ s))); [discriminate|].
    rewrite (IH _ H). f_equal. lia.
Qed.

(* ================================================================= *)
(** ** One entry per article *)

Lemma dict_set_nodup {V} (d : Dict.t V) (k : string) (v : V) :
  NoDup (Dict.keys d) -> NoDup (Dict.keys (Dict.set d k v)).
Proof.
  induction d as [|[k0 v0] d IH]; cbn [Dict.set Dict.keys List.map fst]; intros H.
  - constructor; [intros [] | constructor].
  - inversion H as [|? ? Hnin Hnd]; subst.
    destruct (String.eqb_spec k0 k) as [->|Hne]; cbn [List.map fst].
    + now constructor.
    + constructor; [|now apply IH].
      intros Hin. apply (dict_keys_set d k k0 v) in Hin as [E|Hin]; auto.
Qed.

Lemma append_line_nodup (arts arts' : Dict.t string) (key line : string) :
  NoDup (Dict.keys arts) ->
  append_line arts key line = Ok arts' ->
  NoDup (Dict.keys arts').
Proof.
  unfold append_line, Dict.getitem. intros Hnd.
  destruct (Dict.get arts key); cbn [bind]; [|discriminate].
  intros [= <-]. now apply dict_set_nodup.
Qed.

Lemma line_step_nodup (pat : regex) (st st1 : segmenter) (line : string) :
  NoDup (Dict.keys (articles st)) ->
  line_step pat st line = Ok st1 ->
  NoDup (Dict.keys (articles st1)).
Proof.
  intros Hnd. unfold line_step.
  destruct (re_match pat line I_) as [m|].
  - destruct (new_key_of m) as [[key|]|]; cbn [bind]; try discriminate.
    + destruct (Str.is_empty key); cbn [negb]; [now intros [= <-]|].
      destruct (append_line _ key line) as [arts'|] eqn:A; cbn [bind];
        [|discriminate].
      intros [= <-]. cbn [articles]. apply append_line_nodup in A; [assumption|].
      destruct (Dict.mem (articles st) key); cbn [negb];
        [assumption | now apply dict_set_nodup].
    + now intros [= <-].
  - destruct (current_article st) as [key|]; [|now intros [= <-]].
    destruct (Str.is_empty key); cbn [negb]; [now intros [= <-]|].
    destruct (append_line _ key line) as [arts'|] eqn:A; cbn [bind];
      [|discriminate].
    intros [= <-]. cbn [articles]. now apply append_line_nodup in A.
Qed.

Lemma lines_loop_nodup (pat : regex) (lines : list string) :
  forall st st',
    NoDup (Dict.keys (articles st)) ->
    lines_loop pat st lines = Ok st' ->
    NoDup (Dict.keys (articles st')).
Proof.
  induction lines as [|l lines IH]; intros st st' Hnd; cbn [lines_loop].
  - now intros [= <-].
  - destruct (line_step pat st l) as [st1|] eqn:E; cbn [bind]; [|discriminate].
    apply IH. eapply line_step_nodup; eassumption.
Qed.

(** The collection of a document that can be read, article by article. *)
Lemma parse_regulations_readable
      (fs : string -> pdf) (year : Z) (path : string) (pages : list page) :
  fs path = Opened pages ->
  readable pages ->
  exists st,
    lines_loop (article_pattern year) segmenter_init (doc_lines pages) = Ok st
    /\ fst (parse_regulations fs year path) = articles st
    /\ forall key,
        Dict.get (articles st) key =
        if attributedb key (attribute (article_pattern year) None (doc_lines pages))
        then Some (text_of key
                     (attribute (article_pattern year) None (doc_lines pages)))
        else None.
Proof.
  intros Hfs Hr.
  destruct (read_articles_lines year pages Hr) as (st & Hl & _ & Hread).
  exists st. split; [assumption|]. split.
  - unfold parse_regulations. now rewrite Hfs, Hread.
  - destruct (lines_loop_accumulates year (doc_lines pages) _ segmenter_init_ok)
      as (st' & Hl' & _ & Hspec).
    rewrite Hl in Hl'. injection Hl' as <-.
    intros key. rewrite (Hspec key).
    cbn [segmenter_init current_article articles Dict.mem Dict.get].
    rewrite orb_false_r. unfold text_so_far. cbn [Dict.get append]. reflexivity.
Qed.

Lemma parse_regulations_unreadable
      (fs : string -> pdf) (year : Z) (path : string) :
  read_fails (fs path) ->
  parse_regulations fs year path
  = ([], [MsgParsing year; MsgErrorReading ReadError]).
Proof.
  intros Hfail. unfold parse_regulations.
  now rewrite (read_articles_fails year _ Hfail).
Qed.

(** Lines that are no heading, before any heading, belong to no article. *)
Lemma attribute_skip (pat : regex) (pre rest : list string) :
  (forall l, In l pre -> re_match pat l I_ = None) ->
  attribute pat None (pre ++ rest)%list
  = (List.map (fun l => (None, l)) pre ++ attribute pat None rest)%list.
Proof.
  induction pre as [|l pre IH]; intros H; [reflexivity|].
  cbn [app attribute List.map].
  rewrite (heading_key_none _ _ (H l (or_introl eq_refl))).
  f_equal. apply IH. intros l' Hl'. apply H. now right.
Qed.

(* ================================================================= *)
(** ** The properties of the specification *)

(** C1. For every article text the extractor returns a record, and its
    [total_sets_allocated] is settled by the three allocation patterns in
    the order A ("allocated VALUE [(DIGITS)] sets"), B ("use no more than
    VALUE sets"), C (the broad "allocated ... sets"): it is the normalized
    value of the first pattern of that list whose match normalizes to a
    number above zero, every earlier pattern having no match or a match
    that normalizes to zero; it is 0 when no pattern gives a positive
    value. *)
Theorem total_sets_allocated_first_positive (article_text : string) :
  alloc_patterns = [strategy_A; strategy_B; strategy_C]
  /\ exists data,
      extract_tyre_data article_text = Ok data
      /\ ((exists i p v,
              nth_error alloc_patterns i = Some p
              /\ normalizes_to p article_text v /\ (0 < v)%Z
              /\ (forall j q, j < i -> nth_error alloc_patterns j = Some q ->
                              ~ yields_positive q article_text)
              /\ total_sets_allocated data = v)
          \/ ((forall q, In q alloc_patterns ->
                         ~ yields_positive q article_text)
              /\ total_sets_allocated data = 0%Z)).
Proof.
  split; [reflexivity|].
  destruct (extract_tyre_data_ok article_text)
    as (mn & tot & _ & _ & Hloop & _ & Hx).
  eexists. split; [exact Hx|]. cbn [total_sets_allocated].
  destruct (alloc_loop_spec article_text 0 alloc_patterns alloc_patterns_capture)
    as [(i & p & v & Hi & Hn & Hv & Hb & Hr) | [Hnone Hr]];
    rewrite Hr in Hloop; injection Hloop as <-.
  - left. exists i, p, v. auto.
  - right. auto.
Qed.

(** C2. In every document, the lines that come before the first line
    matching the year's heading pattern are attributed to no article: an
    article of the returned collection holds exactly the lines attributed
    to it among the remaining lines, and when the document can be read the
    collection is the one the segmenter builds from the remaining lines
    alone. *)
Theorem lines_before_first_heading_discarded
        (fs : string -> pdf) (year : Z) (path : string) (pages : list page)
        (pre rest : list string) :
  fs path = Opened pages ->
  doc_lines pages = (pre ++ rest)%list ->
  (forall l, In l pre -> re_match (article_pattern year) l I_ = None) ->
  attribute (article_pattern year) None (doc_lines pages)
  = (List.map (fun l => (None, l)) pre
     ++ attribute (article_pattern year) None rest)%list
  /\ (forall key text,
         Dict.get (fst (parse_regulations fs year path)) key = Some text ->
         attributed_to key (attribute (article_pattern year) None rest)
         /\ text = text_of key (attribute (article_pattern year) None rest))
  /\ (readable pages ->
      exists st,
        lines_loop (article_pattern year) segmenter_init rest = Ok st
        /\ fst (parse_regulations fs year path) = articles st).
Proof.
  intros Hfs Hlines Hpre.
  assert (Hsame : forall st,
             lines_loop (article_pattern year) segmenter_init (doc_lines pages)
             = Ok st ->
             lines_loop (article_pattern year) segmenter_init rest = Ok st).
  { intros st. now rewrite Hlines, (lines_loop_skip _ _ _ Hpre). }
  split; [|split].
  - rewrite Hlines. now apply attribute_skip.
  - intros key text Hget.
    destruct (in_dec page_eq_dec PageFails pages) as [Hin|Hout].
    + rewrite parse_regulations_unreadable in Hget; [discriminate|].
      right. now exists pages.
    + destruct (parse_regulations_readable fs year path pages Hfs Hout)
        as (st & Hl & Hp & _).
      apply Hsame in Hl. rewrite Hp in Hget.
      destruct (lines_loop_accumulates year rest _ segmenter_init_ok)
        as (st' & Hl' & _ & Hspec).
      rewrite Hl in Hl'. injection Hl' as <-.
      rewrite (Hspec key) in Hget.
      cbn [segmenter_init current_article articles Dict.mem Dict.get] in Hget.
      rewrite orb_false_r in Hget. unfold text_so_far in Hget.
      cbn [Dict.get append] in Hget.
      destruct (attributedb key _) eqn:E; [|discriminate].
      apply attributedb_spec in E. injection Hget as <-. now split.
  - intros Hr.
    destruct (parse_regulations_readable fs year path pages Hfs Hr)
      as (st & Hl & Hp & _).
    exists st. split; [now apply Hsame | assumption].
Qed.

(** C3. The locator returns the identifier of the first article, in the
    collection's insertion order, whose first 1000 characters, lower-cased,
    contain "supply of tyres", "quantity of tyres" or "use of tyres", and
    [None] when no article does; of two matching articles the earlier
    one is returned. *)
Theorem locator_returns_first_match (articles_dict : Dict.t string) :
  (forall id,
      find_tyre_article_id articles_dict = Some id <->
      exists before content after,
        articles_dict = (before ++ (id, content) :: after)%list
        /\ tyre_header content
        /\ forall k c, In (k, c) before -> ~ tyre_header c)
  /\ (find_tyre_article_id articles_dict = None <->
      forall k c, In (k, c) articles_dict -> ~ tyre_header c)
  /\ (forall before id1 c1 middle id2 c2 after,
         articles_dict
         = (before ++ (id1, c1) :: middle ++ (id2, c2) :: after)%list ->
         (forall k c, In (k, c) before -> ~ tyre_header c) ->
         tyre_header c1 -> tyre_header c2 ->
         find_tyre_article_id articles_dict = Some id1).
Proof.
  split; [|split].
  - intros id. apply find_tyre_article_id_some.
  - apply find_tyre_article_id_none.
  - intros before id1 c1 middle id2 c2 after -> Hb H1 _.
    apply find_tyre_article_id_some. now exists before, c1, (middle ++ (id2, c2) :: after)%list.
Qed.

(* ----------------------------------------------------------------- *)
(** The numeric pattern under [re.IGNORECASE]: after the digit group, the
    separator and the blanks, a letter of either case makes a heading. *)

Ltac every_char c :=
  destruct c as [[] [] [] [] [] [] [] []]; vm_compute; intros; congruence.

Lemma digit_not_space (c : ascii) :
  Char.isdecimal c = true -> Char.isspace c = false.
Proof. every_char c. Qed.

Lemma digit_not_A (c : ascii) :
  Char.isdecimal c = true -> chr_eq I_ "A" c = false.
Proof. every_char c. Qed.

Lemma letter_not_space (c : ascii) :
  in_class I_ (Range "A" "Z") c = true -> Char.isspace c = false.
Proof. every_char c. Qed.

Lemma letter_any_case (c : ascii) :
  in_class I_ (Range "A" "Z") c = true <->
  Char.between 65 90 c = true \/ Char.between 97 122 c = true.
Proof.
  destruct c as [[] [] [] [] [] [] [] []]; vm_compute; intuition congruence.
Qed.

Lemma greedy_longest {A} (f : flags) (cs : charset) (c s : string)
      (k : @cont A) (m : A) :
  Str.forallb (in_class f cs) c = true ->
  stops f cs s ->
  k c s = Some m ->
  greedy f cs (c ++ s) k = Some m.
Proof.
  revert k. induction c as [|a c IH]; intros k Hc Hs Hk.
  - destruct s as [|x s]; cbn in *; [assumption|]. now rewrite Hs.
  - cbn in Hc. apply andb_true_iff in Hc as [Ha Hc].
    cbn [append greedy]. rewrite Ha.
    now rewrite (IH (fun t rest => k (String a t) rest) Hc Hs Hk).
Qed.

Lemma numbered_line_in_any_case_is_heading
      (d ws rest : string) (sep c : ascii) :
  digits d -> d <> EmptyString ->
  sep = "."%char \/ sep = ")"%char ->
  Str.forallb Char.isspace ws = true -> ws <> EmptyString ->
  Char.between 65 90 c = true \/ Char.between 97 122 c = true ->
  re_match numeric_pattern (d ++ String sep (ws ++ String c rest)) I_
  = Some {| m_text := d ++ String sep (ws ++ String c EmptyString);
            m_groups := [None; Some d] |}.
Proof.
  intros Hd Hne Hsep Hws Hwne Hc.
  destruct d as [|d0 d]; [contradiction|]. destruct ws as [|w0 ws]; [contradiction|].
  unfold digits in Hd. cbn [Str.forallb] in Hd, Hws.
  apply andb_true_iff in Hd as [Hd0 Hd]. apply andb_true_iff in Hws as [Hw0 Hws].
  apply letter_any_case in Hc. cbn [in_class] in Hc.
  unfold re_match, attempt, numeric_pattern.
  cbn [run Nat.eqb ngroups Nat.max repeat append greedy in_class].
  rewrite (digit_not_space _ Hd0).
  cbn [strip]. rewrite (digit_not_A _ Hd0). cbn [orelse].
  rewrite Hd0.
  erewrite greedy_longest; [reflexivity | exact Hd | | ].
  - destruct Hsep as [-> | ->]; reflexivity.
  - assert (Hs : exists_in (fun x => chr_eq I_ x sep) ".)" = true)
      by (destruct Hsep as [-> | ->]; reflexivity).
    rewrite Hs, Hw0.
    erewrite greedy_longest; [reflexivity | exact Hws | | ].
    + cbn. now apply letter_not_space.
    + rewrite Hc. reflexivity.
Qed.

(** C4. For a non-2026 year a line should start a new article only when
    it has the numeric heading form, with a capitalized word after the
    digit group, case being ignored for the "ARTICLE" keyword only. The
    script does not do that: it passes [re.IGNORECASE] for the whole
    pattern, so the pattern's [[A-Z]] accepts a lower-case letter as well,
    and in a 2018 document the body line "1. each driver ..." is taken for
    a heading and opens article "1". *)
Theorem lowercase_numbered_line_starts_article :
  re_match numeric_pattern "1. each driver is allocated thirteen (13) sets" I_
  = Some {| m_text := "1. e"; m_groups := [None; Some "1"] |}
  /\ fst (parse_regulations
            (fun _ => Opened [Page (Some ("24. SUPPLY OF TYRES" ++ Str.newline
                      ++ "1. each driver is allocated thirteen (13) sets"))])
            2018 "fia-pdfs\fia-sporting-regulations-2018.pdf")
     = [ ("24", "24. SUPPLY OF TYRES" ++ Str.newline);
         ("1", "1. each driver is allocated thirteen (13) sets" ++ Str.newline) ].
Proof. split; vm_compute; reflexivity. Qed.

(** C5. In a document that can be read, the collection has one entry per
    identifier, and the text under an identifier is the concatenation, in
    document order, of all the lines attributed to it (its heading lines,
    at every occurrence, and the body lines that follow them), each with
    its line feed; an identifier no line is attributed to has no entry.
    A heading line for an article that already has text adds to that text
    and does not replace it. *)
Theorem repeated_heading_accumulates
        (fs : string -> pdf) (year : Z) (path : string) (pages : list page) :
  fs path = Opened pages ->
  readable pages ->
  NoDup (Dict.keys (fst (parse_regulations fs year path)))
  /\ (forall key,
         attributed_to key (attribute (article_pattern year) None (doc_lines pages)) ->
         Dict.get (fst (parse_regulations fs year path)) key
         = Some (text_of key
                   (attribute (article_pattern year) None (doc_lines pages))))
  /\ (forall key,
         ~ attributed_to key (attribute (article_pattern year) None (doc_lines pages)) ->
         Dict.get (fst (parse_regulations fs year path)) key = None)
  /\ (forall st line key,
         segmenter_ok st ->
         heading_key (article_pattern year) line = Some key ->
         exists st1,
           line_step (article_pattern year) st line = Ok st1
           /\ Dict.get (articles st1) key
              = Some (text_so_far (articles st) key ++ line ++ Str.newline)).
Proof.
  intros Hfs Hr.
  destruct (parse_regulations_readable fs year path pages Hfs Hr)
    as (st & Hl & Hparse & Hget).
  rewrite Hparse.
  split; [|split; [|split]].
  - eapply lines_loop_nodup; [|exact Hl]. constructor.
  - intros key Ha. apply attributedb_spec in Ha. now rewrite Hget, Ha.
  - intros key Ha. rewrite Hget.
    destruct (attributedb key _) eqn:E; [|reflexivity].
    apply attributedb_spec in E. contradiction.
  - intros st0 line key Hok Hk.
    destruct (line_step_effect year st0 line Hok) as (st1 & Hs & _ & Hc & Hg).
    exists st1. split; [assumption|].
    rewrite (Hg key), Hc, Hk. now rewrite String.eqb_refl.
Qed.

Lemma search_A_words (pos : nat) (post : string) :
  search_from I_S strategy_A pos ("allocated thirteen (13) sets" ++ post)
  = Some {| m_text := "allocated thirteen (13) sets";
            m_groups := [Some "thirteen"] |}.
Proof. vm_compute. reflexivity. Qed.

Lemma search_A_digits (pos : nat) (post : string) :
  search_from I_S strategy_A pos ("allocated 13 sets" ++ post)
  = Some {| m_text := "allocated 13 sets"; m_groups := [Some "13"] |}.
Proof. vm_compute. reflexivity. Qed.

(** When strategy A finds its first match at a phrase that captures a word
    for thirteen, the field is 13. *)
Lemma total_from_strategy_A (pre phrase post : string) (m : Match) (t : string) :
  no_match_before I_S strategy_A 0 (length pre) (pre ++ phrase ++ post) = true ->
  (forall pos, search_from I_S strategy_A pos (phrase ++ post) = Some m) ->
  group m 1 = Ok (Some t) ->
  text_to_int (Some t) = Ok 13%Z ->
  exists data,
    extract_tyre_data (pre ++ phrase ++ post) = Ok data
    /\ total_sets_allocated data = 13%Z.
Proof.
  intros Hpre Hm Hg Ht.
  destruct (extract_tyre_data_ok (pre ++ phrase ++ post))
    as (mn & tot & _ & _ & Hloop & _ & Hx).
  eexists. split; [exact Hx|]. cbn [total_sets_allocated].
  unfold alloc_patterns in Hloop. cbn [alloc_loop] in Hloop.
  unfold re_search in Hloop at 1.
  rewrite (search_from_skip _ _ _ _ _ Hpre), Hm, Hg in Hloop.
  cbn [bind] in Hloop. rewrite Ht in Hloop. cbn [bind] in Hloop.
  change (13 >? 0)%Z with true in Hloop. cbn iota in Hloop. congruence.
Qed.

(** C6. Two article texts that differ only in having "allocated thirteen
    (13) sets" where the other has "allocated 13 sets", strategy A matching
    nowhere before that phrase in either, both give
    [total_sets_allocated] = 13. *)
Theorem thirteen_in_words_or_digits (pre post : string) :
  no_match_before I_S strategy_A 0 (length pre)
                  (pre ++ "allocated thirteen (13) sets" ++ post) = true ->
  no_match_before I_S strategy_A 0 (length pre)
                  (pre ++ "allocated 13 sets" ++ post) = true ->
  exists d1 d2,
    extract_tyre_data (pre ++ "allocated thirteen (13) sets" ++ post) = Ok d1
    /\ extract_tyre_data (pre ++ "allocated 13 sets" ++ post) = Ok d2
    /\ total_sets_allocated d1 = 13%Z
    /\ total_sets_allocated d2 = 13%Z.
Proof.
  intros H1 H2.
  destruct (total_from_strategy_A pre _ post _ "thirteen" H1
              (fun pos => search_A_words pos post) eq_refl eq_refl)
    as (d1 & Hd1 & Ht1).
  destruct (total_from_strategy_A pre _ post _ "13" H2
              (fun pos => search_A_digits pos post) eq_refl eq_refl)
    as (d2 & Hd2 & Ht2).
  now exists d1, d2.
Qed.

Lemma other_years_keys (files : list (Z * string)) (year : Z) :
  ~ In year (years_of files) ->
  forall y, In y (years_of files) -> Str.of_int year <> Str.of_int y.
Proof.
  intros Hnin y Hy E. apply of_int_inj in E. congruence.
Qed.

(** C7. When the text of a year's document cannot be obtained (opening it
    or reading one of its pages fails), the segmenter returns the empty
    collection, and the run over the whole table still ends normally: its
    database has no entry for that year and is the database of the run
    over the other documents. *)
Theorem unreadable_document_is_skipped
        (fs : string -> pdf) (before after : list (Z * string))
        (year : Z) (path : string) :
  read_fails (fs path) ->
  ~ In year (years_of (before ++ after)) ->
  parse_regulations fs year path
  = ([], [MsgParsing year; MsgErrorReading ReadError])
  /\ exists db log,
      years_loop fs initial_state (before ++ (year, path) :: after) = Ok (db, log)
      /\ Dict.get db (Str.of_int year) = None
      /\ In (MsgErrorReading ReadError) log
      /\ exists log', years_loop fs initial_state (before ++ after) = Ok (db, log').
Proof.
  intros Hfail Hnin.
  assert (Hparse := parse_regulations_unreadable fs year path Hfail).
  split; [assumption|].
  destruct (years_loop_total fs before []) as (db1 & out1 & Hb & Hg1).
  destruct (years_loop_total fs after db1) as (db2 & out2 & Ha & Hg2).
  assert (Hstep : forall log,
             year_step fs (db1, log) (year, path)
             = Ok (db1, (log ++ [MsgParsing year; MsgErrorReading ReadError]
                         ++ [MsgNotIdentified year])%list)).
  { intros log. unfold year_step. rewrite Hparse. reflexivity. }
  unfold initial_state.
  exists db2. eexists. split; [|split; [|split]].
  - rewrite years_loop_app, Hb. cbn [bind years_loop].
    rewrite Hstep. cbn [bind]. apply Ha.
  - unfold years_of in Hnin. rewrite map_app in Hnin.
    rewrite Hg2, Hg1; [reflexivity| |].
    + apply other_years_keys. intros H. apply Hnin, in_or_app. now left.
    + apply other_years_keys. intros H. apply Hnin, in_or_app. now right.
  - apply in_or_app. left. apply in_or_app. right. cbn. auto.
  - eexists. rewrite years_loop_app, Hb. cbn [bind]. apply Ha.
Qed.

(** C8. When the locator finds the tyre article of a year's document and
    none of the allocation patterns gives a positive value on its text,
    the run still ends normally with that year in the database, its
    [total_sets_allocated] being 0 and its [source_article] the located
    identifier, and the warning is printed right after the line that
    reports the article. *)
Theorem extraction_miss_keeps_the_year
        (fs : string -> pdf) (before after : list (Z * string))
        (year : Z) (path tyre_id text : string) :
  ~ In year (years_of after) ->
  find_tyre_article_id (fst (parse_regulations fs year path)) = Some tyre_id ->
  Dict.get (fst (parse_regulations fs year path)) tyre_id = Some text ->
  (forall p, In p alloc_patterns -> ~ yields_positive p text) ->
  exists db log data,
    years_loop fs initial_state (before ++ (year, path) :: after) = Ok (db, log)
    /\ extract_tyre_data text = Ok data
    /\ total_sets_allocated data = 0%Z
    /\ Dict.get db (Str.of_int year)
       = Some {| fields := data; source_article := tyre_id |}
    /\ printed_in_a_row (MsgFound year tyre_id) MsgWarning log.
Proof.
  intros Hnin Hfind Hget Hmiss.
  destruct (years_loop_total fs before []) as (db1 & out1 & Hb & _).
  pose proof (year_step_spec fs db1 year path) as Hstep. cbn zeta in Hstep.
  rewrite Hfind in Hstep. destruct Hstep as (text' & data & Hget' & Hx & Hstep).
  assert (text' = text) as -> by congruence.
  assert (Hzero : total_sets_allocated data = 0%Z).
  { destruct (extract_tyre_data_ok text) as (mn & tot & _ & _ & Hloop & _ & Hx').
    rewrite Hx in Hx'. injection Hx' as ->. cbn [total_sets_allocated].
    destruct (alloc_loop_spec text 0 alloc_patterns alloc_patterns_capture)
      as [(i & p & v & Hi & Hn & Hv & _) | [_ Hr]].
    - exfalso. apply (Hmiss p); [eapply nth_error_In; eassumption|].
      now exists v.
    - congruence. }
  destruct (years_loop_total fs after
              (Dict.set db1 (Str.of_int year)
                        {| fields := data; source_article := tyre_id |}))
    as (db2 & out2 & Ha & Hg2).
  unfold initial_state.
  exists db2. eexists. exists data. split; [|split; [|split; [|split]]].
  - rewrite years_loop_app, Hb. cbn [bind years_loop].
    rewrite Hstep. cbn [bind]. apply Ha.
  - assumption.
  - assumption.
  - rewrite Hg2; [apply dict_get_set_same|].
    now apply other_years_keys.
  - rewrite Hzero. change (0 =? 0)%Z with true. cbn iota.
    unfold printed_in_a_row.
    exists (([MsgStarting] ++ out1) ++ snd (parse_regulations fs year path))%list,
           out2.
    rewrite <- !app_assoc. reflexivity.
Qed.

(** C9. The identifier of a heading is always obtained: a match of the
    sectioned (2026) pattern has a non-empty group 1, so [group(2)], which
    that one-group pattern does not have, is never asked for; a match of
    the numeric pattern has a non-empty digit string in exactly one of its
    two groups, the other being unset; so on every heading line of every
    year the identifier is computed without an exception and is not empty,
    and no key of a returned collection is the empty string. *)
Theorem heading_identifier_total :
  (forall line m,
      re_match sectioned_pattern line I_ = Some m ->
      group m 2 = Raise IndexError
      /\ exists t,
          group m 1 = Ok (Some t) /\ t <> EmptyString
          /\ new_key_of m = Ok (Some t))
  /\ (forall line m,
         re_match numeric_pattern line I_ = Some m ->
         exists d,
           digits d /\ d <> EmptyString
           /\ ((group m 1 = Ok (Some d) /\ group m 2 = Ok None)
               \/ (group m 1 = Ok None /\ group m 2 = Ok (Some d))))
  /\ (forall year line m,
         re_match (article_pattern year) line I_ = Some m ->
         exists key, new_key_of m = Ok (Some key) /\ key <> EmptyString)
  /\ (forall fs year path key,
         In key (Dict.keys (fst (parse_regulations fs year path))) ->
         key <> EmptyString).
Proof.
  split; [|split; [|split]].
  - intros line m H. apply sectioned_groups in H as (t & Hg & Ht).
    unfold new_key_of, group. rewrite Hg. cbn. split; [reflexivity|].
    exists t. destruct t; [contradiction|]. cbn. auto.
  - intros line m H. apply numeric_groups in H as (d & Hd & Hne & [Hg | Hg]);
      exists d; unfold group; rewrite Hg; cbn; auto.
  - intros year line m H.
    apply new_key_of_heading in H as (key & Hk & Hn & _). now exists key.
  - intros fs year path key. apply parse_regulations_keys.
Qed.

(** C10. For every article text the extractor returns a record whose
    [mandatory_dry_compounds] and [total_sets_allocated] both lie between 0
    and 14: they only ever receive a value of [text_to_int], and every
    value of [text_to_int] lies in that range. *)
Theorem integer_fields_between_0_and_14 (article_text : string) :
  (forall o v, text_to_int o = Ok v -> (0 <= v <= 14)%Z)
  /\ exists data,
      extract_tyre_data article_text = Ok data
      /\ (0 <= mandatory_dry_compounds data <= 14)%Z
      /\ (0 <= total_sets_allocated data <= 14)%Z.
Proof.
  split; [apply text_to_int_range|].
  destruct (extract_tyre_data_ok article_text)
    as (mn & tot & _ & Hmn & _ & Htot & Hx).
  eexists. split; [exact Hx|]. cbn. lia.
Qed.

(* ================================================================= *)
(** ** The properties at sample documents *)

Lemma lines_before_first_heading_discarded_witness :
  doc_lines Sample.with_title_page
  = (Sample.title_lines ++ Sample.tyre_lines)%list
  /\ exists st,
      lines_loop (article_pattern 2018) segmenter_init Sample.tyre_lines = Ok st
      /\ fst (parse_regulations (Sample.fs_of Sample.with_title_page) 2018
                                Sample.path_2018)
         = articles st.
Proof.
  split; [reflexivity|].
  destruct (lines_before_first_heading_discarded
              (Sample.fs_of Sample.with_title_page) 2018 Sample.path_2018
              Sample.with_title_page Sample.title_lines Sample.tyre_lines)
    as (_ & _ & Hread).
  - reflexivity.
  - reflexivity.
  - intros l [<- | [<- | []]]; reflexivity.
  - apply Hread. intros [X | [X | [X | []]]]; discriminate.
Defined.

Lemma locator_returns_first_match_witness :
  find_tyre_article_id Sample.two_tyre_articles = Some "24".
Proof.
  apply (proj2 (proj2 (locator_returns_first_match Sample.two_tyre_articles))
               [("1", "1. REGULATIONS")] "24" "24. SUPPLY OF TYRES" []
               "25" "25. USE OF TYRES" []).
  - reflexivity.
  - intros k c [E | []] Hh. injection E as <- <-. apply keyword_test in Hh.
    vm_compute in Hh. discriminate.
  - exists "supply of tyres". split; [cbn; auto|].
    exists "24. ", EmptyString. reflexivity.
  - exists "use of tyres". split; [cbn; auto|].
    exists "25. ", EmptyString. reflexivity.
Defined.

Lemma repeated_heading_accumulates_witness :
  Dict.get (fst (parse_regulations (Sample.fs_of Sample.resumed_article) 2018
                                   Sample.path_2018)) "24"
  = Some (String.concat Str.newline
            ["24. SUPPLY OF TYRES"; "a) first part";
             "24. SUPPLY OF TYRES (continued)"; "b) second part"; EmptyString]).
Proof.
  destruct (repeated_heading_accumulates
              (Sample.fs_of Sample.resumed_article) 2018 Sample.path_2018
              Sample.resumed_article)
    as (_ & Hget & _).
  - reflexivity.
  - intros [X | [X | []]]; discriminate.
  - rewrite (Hget "24").
    + reflexivity.
    + exists "24. SUPPLY OF TYRES". vm_compute. auto.
Defined.

Lemma thirteen_in_words_or_digits_witness :
  exists d1 d2,
    extract_tyre_data
      ("Each driver is " ++ "allocated thirteen (13) sets" ++ " per event.")
    = Ok d1
    /\ extract_tyre_data
         ("Each driver is " ++ "allocated 13 sets" ++ " per event.")
       = Ok d2
    /\ total_sets_allocated d1 = 13%Z
    /\ total_sets_allocated d2 = 13%Z.
Proof.
  apply (thirteen_in_words_or_digits "Each driver is " " per event.");
    vm_compute; reflexivity.
Defined.

Lemma unreadable_document_is_skipped_witness :
  exists db log,
    run_script Sample.fs_2020_missing = Ok (db, log)
    /\ Dict.get db (Str.of_int 2020) = None
    /\ In (MsgErrorReading ReadError) log.
Proof.
  destruct (unreadable_document_is_skipped
              Sample.fs_2020_missing
              (firstn 2 REGULATION_FILES) (skipn 3 REGULATION_FILES)
              2020 Sample.path_2020)
    as (_ & db & log & Hrun & Hget & Hlog & _).
  - left. reflexivity.
  - cbn. lia.
  - exists db, log. repeat split; assumption.
Defined.

Lemma extraction_miss_keeps_the_year_witness :
  exists db log data,
    run_script (Sample.fs_of Sample.no_allocation) = Ok (db, log)
    /\ extract_tyre_data Sample.no_allocation_text = Ok data
    /\ total_sets_allocated data = 0%Z
    /\ Dict.get db (Str.of_int 2018)
       = Some {| fields := data; source_article := "24" |}
    /\ printed_in_a_row (MsgFound 2018 "24") MsgWarning log.
Proof.
  apply (extraction_miss_keeps_the_year
           (Sample.fs_of Sample.no_allocation) [] (skipn 1 REGULATION_FILES)
           2018 Sample.path_2018 "24" Sample.no_allocation_text).
  - cbn. lia.
  - reflexivity.
  - reflexivity.
  - intros p [<- | [<- | [<- | []]]] (v & (m & t & Hs & _) & _);
      vm_compute in Hs; discriminate.
Defined.

Lemma heading_identifier_total_witness :
  exists key,
    new_key_of {| m_text := "ARTICLE B6"; m_groups := [Some "B6"] |}
    = Ok (Some key)
    /\ key <> EmptyString.
Proof.
  apply (proj1 (proj2 (proj2 heading_identifier_total)) 2026%Z "ARTICLE B6").
  reflexivity.
Defined.

(** The scenarios of the specification. *)

Example scenario_numeric_heading :
  fst (parse_regulations (Sample.fs_of [Sample.page_of Sample.tyre_lines]) 2018
                         Sample.path_2018)
  = [("24", String.concat Str.newline (Sample.tyre_lines ++ [EmptyString]))]
  /\ find_tyre_article_id
       [("24", String.concat Str.newline (Sample.tyre_lines ++ [EmptyString]))]
     = Some "24"
  /\ extract_tyre_data
       (String.concat Str.newline (Sample.tyre_lines ++ [EmptyString]))
     = Ok {| mandatory_dry_compounds := 2; total_sets_allocated := 13;
             wet_race_exception := false; q2_start_tyre_rule := false |}.
Proof. repeat split; vm_compute; reflexivity. Qed.

Example scenario_sectioned_heading :
  fst (parse_regulations
         (Sample.fs_of [Sample.page_of ["ARTICLE B6";
                                        "each driver is allocated eight (8) sets"]])
         2026 Sample.path_2018)
  = [("B6", String.concat Str.newline
              ["ARTICLE B6"; "each driver is allocated eight (8) sets";
               EmptyString])]
  /\ exists data,
      extract_tyre_data
        (String.concat Str.newline
           ["ARTICLE B6"; "each driver is allocated eight (8) sets"; EmptyString])
      = Ok data
      /\ total_sets_allocated data = 8%Z.
Proof. split; [vm_compute; reflexivity|]. eexists. split; vm_compute; reflexivity. Qed.

(* ================================================================= *)
(** ** The matcher finds a match whenever the pattern denotes one *)

Section Completeness.
Context {A : Type}.
Variable f : flags.

Lemma strip_complete (l c s : string) :
  lit_eqb f l c = true -> strip f l (c ++ s) = Some (c, s).
Proof.
  revert c; induction l as [|a l IH]; intros [|b c] H; cbn in H |- *;
    try discriminate; [reflexivity|].
  apply andb_true_iff in H as [Hab Hl]. now rewrite Hab, (IH c Hl).
Qed.

Lemma greedy_complete (cs : charset) (c s : string) (k : @cont A) :
  Str.forallb (in_class f cs) c = true ->
  k c s <> None ->
  greedy f cs (c ++ s) k <> None.
Proof.
  revert k; induction c as [|a c IH]; intros k Hc Hk.
  - destruct s as [|x s]; cbn [append greedy]; [assumption|].
    destruct (in_class f cs x); [|assumption].
    unfold orelse. now destruct (greedy f cs s _).
  - cbn in Hc. apply andb_true_iff in Hc as [Ha Hc].
    cbn [append greedy]. rewrite Ha. unfold orelse.
    pose proof (IH (fun t rest => k (String a t) rest) Hc Hk) as H.
    now destruct (greedy f cs (c ++ s) _).
Qed.

Lemma lazy_complete (cs : charset) (c s : string) (k : @cont A) :
  Str.forallb (in_class f cs) c = true ->
  k c s <> None ->
  lazy f cs (c ++ s) k <> None.
Proof.
  revert k; induction c as [|a c IH]; intros k Hc Hk.
  - cbn [append]. destruct s; cbn [lazy]; unfold orelse;
      now destruct (k EmptyString _).
  - cbn in Hc. apply andb_true_iff in Hc as [Ha Hc].
    cbn [append lazy]. unfold orelse.
    destruct (k EmptyString (String a (c ++ s))); [discriminate|].
    rewrite Ha. now apply IH.
Qed.

Lemma run_complete (r : regex) :
  forall pos g c g' s (k : string -> string -> groups -> option A),
    denote f r pos g c g' ->
    k c s g' <> None ->
    run f r pos (c ++ s) g k <> None.
Proof.
  induction r as [ | l | cs | cs | cs | cs | r IH | r1 IH1 r2 IH2
                   | r1 IH1 r2 IH2 | n r IH ];
    intros pos g c g' s k Hd Hk; cbn [denote] in Hd; cbn [run].
  - destruct Hd as (-> & -> & ->). exact Hk.
  - destruct Hd as (Hl & ->). now rewrite (strip_complete _ _ _ Hl).
  - destruct Hd as ((x & -> & Hx) & ->). cbn [append]. now rewrite Hx.
  - destruct Hd as (Hc & ->). now apply greedy_complete.
  - destruct Hd as (Hc & Hne & ->). destruct c as [|x c]; [contradiction|].
    cbn in Hc. apply andb_true_iff in Hc as [Hx Hc].
    cbn [append]. rewrite Hx. now apply greedy_complete.
  - destruct Hd as (Hc & ->). now apply lazy_complete.
  - unfold orelse. destruct Hd as [Hd | (-> & ->)].
    + pose proof (IH pos g c g' s k Hd Hk). now destruct (run f r pos (c ++ s) g k).
    + cbn [append]. now destruct (run f r pos s g k).
  - destruct Hd as (c1 & c2 & g1 & -> & Hd1 & Hd2).
    rewrite append_assoc. eapply IH1; [exact Hd1|].
    eapply IH2; [exact Hd2 | exact Hk].
  - unfold orelse. destruct Hd as [Hd | Hd].
    + pose proof (IH1 pos g c g' s k Hd Hk). now destruct (run f r1 pos (c ++ s) g k).
    + pose proof (IH2 pos g c g' s k Hd Hk). now destruct (run f r1 pos (c ++ s) g k).
  - destruct Hd as (g1 & Hd & ->). eapply IH; [exact Hd | exact Hk].
Qed.
End Completeness.


Lemma search_from_complete (f : flags) (r : regex) (pre suf : string) :
  forall pos,
    attempt f r (pos + length pre) suf <> None ->
    search_from f r pos (pre ++ suf) <> None.
Proof.
  induction pre as [|x pre IH]; intros pos H.
  - cbn [append]. cbn [length] in H. rewrite Nat.add_0_r in H.
    destruct suf; cbn [search_from]; now destruct (attempt f r pos _).
  - cbn [append search_from]. destruct (attempt f r pos _); [discriminate|].
    apply IH. cbn [length] in H. now rewrite Nat.add_succ_r in H.
Qed.

(** Under [re.IGNORECASE] a literal matches the texts that lower-case to
    what it lower-cases to. *)
Lemma lit_eqb_lower (l c : string) :
  lit_eqb I_ l c = true <-> Str.lower l = Str.lower c.
Proof.
  unfold Str.lower.
  revert c; induction l as [|a l IH]; intros [|b c]; cbn [lit_eqb Str.map];
    try (split; congruence).
  rewrite andb_true_iff, IH. unfold chr_eq. cbn [IGNORECASE I_].
  rewrite Ascii.eqb_eq. split; [intros [-> ->]; reflexivity | intros [= -> ->]; auto].
Qed.

(* ================================================================= *)
(** ** Which lines are headings *)

(** Bring nested appends to the right-nested form. *)
Ltac reassoc := repeat first [rewrite append_assoc | progress cbn [append]].






(* ================================================================= *)
(** ** Which identifier a heading carries *)

Lemma lower_a_not_space (c : ascii) :
  Char.lower c = "a"%char -> Char.isspace c = false.
Proof. every_char c. Qed.

Lemma letter_b_not_space (c : ascii) :
  c = "B"%char \/ c = "b"%char ->
  Char.isspace c = false /\ chr_eq I_ "A" c = false /\ chr_eq I_ "B" c = true.
Proof. intros [-> | ->]; repeat split; reflexivity. Qed.

Lemma article_word_head (a : string) :
  article_word a ->
  exists a0 a', a = String a0 a' /\ Char.isspace a0 = false.
Proof.
  unfold article_word, Str.lower. destruct a as [|a0 a']; cbn [Str.map]; [discriminate|].
  intros [= H _]. exists a0, a'. split; [reflexivity | now apply lower_a_not_space].
Qed.

Lemma nonempty_head (P : ascii -> bool) (s : string) :
  Str.forallb P s = true -> s <> EmptyString ->
  exists x s', s = String x s' /\ P x = true /\ Str.forallb P s' = true.
Proof.
  destruct s as [|x s']; [contradiction|]. cbn. intros H _.
  apply andb_true_iff in H as [Hx Hs]. now exists x, s'.
Qed.

Lemma article_form_match (ws a sp d rest : string) :
  blanks ws -> article_word a ->
  blanks sp -> sp <> EmptyString ->
  digits d -> d <> EmptyString ->
  stops I_ Digit rest ->
  re_match numeric_pattern (ws ++ a ++ sp ++ d ++ rest) I_
  = Some {| m_text := ws ++ a ++ sp ++ d; m_groups := [Some d; None] |}.
Proof.
  intros Hws Ha Hsp Hspne Hd Hdne Hrest.
  destruct (article_word_head a Ha) as (a0 & a' & Ea & Ha0).
  destruct (nonempty_head _ sp Hsp Hspne) as (w0 & sp' & -> & Hw0 & Hsp').
  destruct (nonempty_head _ d Hd Hdne) as (d0 & d' & -> & Hd0 & Hd').
  assert (Hlit : lit_eqb I_ "ARTICLE" a = true) by (apply lit_eqb_lower; now symmetry).
  unfold re_match, attempt, numeric_pattern.
  cbn [run Nat.eqb ngroups Nat.max repeat].
  apply greedy_longest; [exact Hws | rewrite Ea; exact Ha0 |].
  rewrite (strip_complete I_ _ _ _ Hlit). cbn [append in_class]. rewrite Hw0.
  erewrite greedy_longest; [reflexivity | exact Hsp' | cbn; now apply digit_not_space |].
  cbn [in_class]. rewrite Hd0.
  erewrite greedy_longest; [ | exact Hd' | exact Hrest | reflexivity].
  cbn [set_group orelse length Nat.add]. now reassoc.
Qed.

(** X5. For a year other than 2026, a line "ARTICLE", white space, digits (the
    keyword in any case, white space allowed in front) carries the whole run
    of digits as its identifier. *)
Theorem article_form_identifier (year : Z) (ws a sp d rest : string) :
  year <> 2026%Z ->
  blanks ws -> article_word a ->
  blanks sp -> sp <> EmptyString ->
  digits d -> d <> EmptyString ->
  stops I_ Digit rest ->
  heading_key (article_pattern year) (ws ++ a ++ sp ++ d ++ rest) = Some d.
Proof.
  intros Hy Hws Ha Hsp Hspne Hd Hdne Hrest.
  unfold article_pattern. apply Z.eqb_neq in Hy. rewrite Hy.
  unfold heading_key.
  rewrite (article_form_match ws a sp d rest Hws Ha Hsp Hspne Hd Hdne Hrest).
  destruct d; [contradiction | reflexivity].
Qed.

Lemma dot_not_digit : in_class I_ Digit "."%char = false.
Proof. reflexivity. Qed.

(** The part of the sectioned pattern in front of the group: optional white
    space and an optional "ARTICLE" with white space. *)
Lemma sectioned_front {A} (r : regex) (ws art s : string) (b : ascii)
      (k : string -> string -> groups -> option A) (g : groups) (m : A) :
  blanks ws ->
  (art = EmptyString
   \/ exists a sp, art = a ++ sp /\ article_word a
                   /\ blanks sp /\ sp <> EmptyString) ->
  b = "B"%char \/ b = "b"%char ->
  run I_ r (0 + length EmptyString + length ws + length art) (String b s) g
      (fun c rest g' => k (EmptyString ++ ws ++ art ++ c) rest g') = Some m ->
  run I_ (Bol +++ Many Space +++ Maybe (Lit "ARTICLE" +++ Many1 Space) +++ r)
      0 (ws ++ art ++ String b s) g k
  = Some m.
Proof.
  intros Hws Hart Hb Hk.
  destruct (letter_b_not_space b Hb) as (Hbs & HbA & _).
  cbn [run Nat.eqb].
  destruct Hart as [-> | (a & sp & -> & Ha & Hsp & Hspne)].
  - apply greedy_longest; [exact Hws | exact Hbs |].
    cbn [append strip]. rewrite HbA. cbn [orelse]. exact Hk.
  - destruct (article_word_head a Ha) as (a0 & a' & Ea & Ha0).
    destruct (nonempty_head _ sp Hsp Hspne) as (w0 & sp' & -> & Hw0 & Hsp').
    assert (Hlit : lit_eqb I_ "ARTICLE" a = true)
      by (apply lit_eqb_lower; now symmetry).
    rewrite append_assoc.
    apply greedy_longest; [exact Hws | rewrite Ea; exact Ha0 |].
    rewrite (strip_complete I_ _ _ _ Hlit).
    cbn [append in_class]. rewrite Hw0.
    erewrite greedy_longest; [reflexivity | exact Hsp' | exact Hbs |].
    cbn [orelse]. exact Hk.
Qed.

Lemma sectioned_match_sub (ws art d d2 rest : string) (b : ascii) :
  blanks ws ->
  (art = EmptyString
   \/ exists a sp, art = a ++ sp /\ article_word a
                   /\ blanks sp /\ sp <> EmptyString) ->
  b = "B"%char \/ b = "b"%char ->
  digits d -> d <> EmptyString ->
  digits d2 -> d2 <> EmptyString ->
  stops I_ Digit rest ->
  re_match sectioned_pattern
           (ws ++ art ++ String b (d ++ String "." (d2 ++ rest))) I_
  = Some {| m_text := ws ++ art ++ String b (d ++ String "." d2);
            m_groups := [Some (String b (d ++ String "." d2))] |}.
Proof.
  intros Hws Hart Hb Hd Hdne Hd2 Hd2ne Hrest.
  destruct (letter_b_not_space b Hb) as (_ & _ & HbB).
  destruct (nonempty_head _ d Hd Hdne) as (d0 & d' & -> & Hd0 & Hd').
  destruct (nonempty_head _ d2 Hd2 Hd2ne) as (e0 & e' & -> & He0 & He').
  unfold re_match, attempt, sectioned_pattern.
  apply sectioned_front; [assumption..|].
  cbn [run strip append in_class]. rewrite HbB. cbn [in_class]. rewrite Hd0.
  erewrite greedy_longest; [reflexivity | exact Hd' | exact dot_not_digit |].
  cbn [run strip chr_eq I_ IGNORECASE]. cbn. rewrite He0.
  erewrite greedy_longest; [ | exact He' | exact Hrest | reflexivity].
  cbn [orelse set_group]. now reassoc.
Qed.

Lemma period_only (x : ascii) : chr_eq I_ "." x = true -> x = "."%char.
Proof. every_char x. Qed.

Lemma sectioned_match_plain (ws art d rest : string) (b : ascii) :
  blanks ws ->
  (art = EmptyString
   \/ exists a sp, art = a ++ sp /\ article_word a
                   /\ blanks sp /\ sp <> EmptyString) ->
  b = "B"%char \/ b = "b"%char ->
  digits d -> d <> EmptyString ->
  stops I_ Digit rest -> no_sub_number rest ->
  re_match sectioned_pattern (ws ++ art ++ String b (d ++ rest)) I_
  = Some {| m_text := ws ++ art ++ String b d;
            m_groups := [Some (String b d)] |}.
Proof.
  intros Hws Hart Hb Hd Hdne Hrest Hsub.
  destruct (letter_b_not_space b Hb) as (_ & _ & HbB).
  destruct (nonempty_head _ d Hd Hdne) as (d0 & d' & -> & Hd0 & Hd').
  unfold re_match, attempt, sectioned_pattern.
  apply sectioned_front; [assumption..|].
  cbn [run strip append in_class]. rewrite HbB. cbn [in_class]. rewrite Hd0.
  erewrite greedy_longest; [reflexivity | exact Hd' | exact Hrest |].
  cbn [ngroups Nat.max repeat set_group].
  destruct rest as [|x r]; [cbn [orelse]; reassoc; now rewrite ?append_nil_r|].
  destruct (chr_eq I_ "." x) eqn:E;
    [|cbn [orelse]; reassoc; now rewrite ?append_nil_r].
  apply period_only in E as ->.
  destruct r as [|y r]; [cbn [orelse]; reassoc; now rewrite ?append_nil_r|].
  rewrite (Hsub y r eq_refl). cbn [orelse]. reassoc. now rewrite ?append_nil_r.
Qed.

(** X6. In the 2026 edition a heading "B", digits, period, digits carries the
    code with its sub-number as identifier, and a heading "B", digits that
    does not go on with a sub-number carries the code alone; the letter
    keeps the case it has in the line. *)
Theorem sectioned_identifier (ws art d : string) (b : ascii) :
  blanks ws ->
  (art = EmptyString
   \/ exists a sp, art = a ++ sp /\ article_word a
                   /\ blanks sp /\ sp <> EmptyString) ->
  b = "B"%char \/ b = "b"%char ->
  digits d -> d <> EmptyString ->
  (forall d2 rest,
      digits d2 -> d2 <> EmptyString -> stops I_ Digit rest ->
      heading_key (article_pattern 2026)
                  (ws ++ art ++ String b (d ++ String "." (d2 ++ rest)))
      = Some (String b (d ++ String "." d2)))
  /\ (forall rest,
         stops I_ Digit rest -> no_sub_number rest ->
         heading_key (article_pattern 2026)
                     (ws ++ art ++ String b (d ++ rest))
         = Some (String b d)).
Proof.
  intros Hws Hart Hb Hd Hdne. split.
  - intros d2 rest Hd2 Hd2ne Hrest. unfold heading_key.
    change (article_pattern 2026) with sectioned_pattern.
    now rewrite (sectioned_match_sub ws art d d2 rest b).
  - intros rest Hrest Hsub. unfold heading_key.
    change (article_pattern 2026) with sectioned_pattern.
    now rewrite (sectioned_match_plain ws art d rest b).
Qed.

(* ================================================================= *)
(** ** How the allocation strategies relate *)

Lemma strategy_C_covers_A_at (pos : nat) (s : string) :
  attempt I_S strategy_A pos s <> None ->
  attempt I_S strategy_C pos s <> None.
Proof.
  unfold attempt.
  change (ngroups strategy_A) with 1. change (ngroups strategy_C) with 1.
  destruct (run I_S strategy_A pos s _ _) as [m|] eqn:E; [intros _|congruence].
  apply run_sound in E as (c & rest & g' & -> & H & _).
  unfold strategy_A in H.
  remember (value_group +++ paren_digits +++ Many1 Space +++ Lit "sets") as tail
    eqn:Etail.
  cbn [denote] in H.
  destruct H as (c1 & c23 & g1 & -> & [Hlit ->] & c2 & c3 & g2 & -> & Hsp & Htail).
  destruct Hsp as (Hsp & Hspne & ->).
  eapply run_complete with (g' := g'); [|discriminate].
  unfold strategy_C. rewrite <- Etail. cbn [denote].
  exists c1, (c2 ++ c3), (repeat None 1).
  split; [reflexivity|]. split; [split; [exact Hlit | reflexivity]|].
  exists c2, c3, (repeat None 1).
  split; [reflexivity|]. split; [repeat split; assumption|].
  exists EmptyString, c3, (repeat None 1).
  split; [reflexivity|]. split; [split; reflexivity|].
  cbn [length]. rewrite Nat.add_0_r. exact Htail.
Qed.

(** X13. Strategy C matches every text that strategy A matches. *)
Theorem strategy_C_covers_A (article_text : string) :
  re_search strategy_A article_text I_S <> None ->
  re_search strategy_C article_text I_S <> None.
Proof.
  unfold re_search.
  destruct (search_from I_S strategy_A 0 article_text) as [m|] eqn:E;
    [intros _|congruence].
  apply search_from_sound in E as (pre & suf & -> & E).
  apply search_from_complete. apply strategy_C_covers_A_at. congruence.
Qed.

(* ================================================================= *)
(** ** No field without its opening word *)





(* ================================================================= *)
(** ** [text_to_int]: case, parentheses and numerals *)

Lemma paren_lower (c : ascii) :
  negb (Ascii.eqb (Char.lower c) "("%char || Ascii.eqb (Char.lower c) ")"%char)
  = negb (Ascii.eqb c "("%char || Ascii.eqb c ")"%char).
Proof. destruct c as [[] [] [] [] [] [] [] []]; reflexivity. Qed.

Lemma sub_parens_lower (t : string) :
  Str.lower (sub_parens t) = sub_parens (Str.lower t).
Proof.
  unfold Str.lower, sub_parens. induction t as [|c t IH]; cbn [Str.filter Str.map];
    [reflexivity|].
  rewrite paren_lower.
  destruct (negb _); cbn [Str.map]; now rewrite IH.
Qed.

Lemma sub_parens_append (a b : string) :
  sub_parens (a ++ b) = sub_parens a ++ sub_parens b.
Proof.
  unfold sub_parens. induction a as [|c a IH]; cbn [append Str.filter];
    [reflexivity|].
  destruct (negb _); cbn [append]; now rewrite IH.
Qed.

(** X1. [text_to_int] does not look at the case of letters and drops every
    parenthesis, wherever it stands. *)
Theorem text_to_int_ignores_case_and_parentheses :
  (forall t u, Str.lower t = Str.lower u ->
               text_to_int (Some t) = text_to_int (Some u))
  /\ (forall a b, text_to_int (Some (a ++ String "(" b))
                  = text_to_int (Some (a ++ b)))
  /\ (forall a b, text_to_int (Some (a ++ String ")" b))
                  = text_to_int (Some (a ++ b))).
Proof.
  split; [|split].
  - intros t u H. unfold text_to_int. now rewrite !sub_parens_lower, H.
  - intros a b. unfold text_to_int. now rewrite !sub_parens_append.
  - intros a b. unfold text_to_int. now rewrite !sub_parens_append.
Qed.

Lemma numeral_char_plain (c : ascii) :
  numeral_char c = true ->
  negb (Ascii.eqb c "("%char || Ascii.eqb c ")"%char) = true
  /\ Char.lower c = c.
Proof. destruct c as [[] [] [] [] [] [] [] []]; vm_compute; intros; split; congruence. Qed.

Lemma numeral_clean (s : string) :
  Str.forallb numeral_char s = true -> Str.lower (sub_parens s) = s.
Proof.
  unfold Str.lower, sub_parens. induction s as [|c s IH]; cbn [Str.forallb Str.filter Str.map];
    [reflexivity|].
  intros H. apply andb_true_iff in H as [Hc Hs].
  destruct (numeral_char_plain c Hc) as [-> Hl]. cbn [Str.map].
  now rewrite Hl, (IH Hs).
Qed.

Lemma uint_numeral (d : Decimal.uint) :
  Str.forallb numeral_char (NilEmpty.string_of_uint d) = true.
Proof. induction d; cbn; auto. Qed.

Lemma of_int_numeral (n : Z) : Str.forallb numeral_char (Str.of_int n) = true.
Proof.
  unfold Str.of_int. destruct (Z.to_int n) as [d|d]; cbn [NilZero.string_of_int].
  - unfold NilZero.string_of_uint. destruct d; try apply uint_numeral. reflexivity.
  - cbn [Str.forallb]. unfold NilZero.string_of_uint.
    destruct d; try apply uint_numeral. reflexivity.
Qed.

Lemma of_int_eqb (k n : Z) :
  String.eqb (Str.of_int k) (Str.of_int n) = (k =? n)%Z.
Proof.
  destruct (Z.eqb_spec k n) as [->|Hne].
  - apply String.eqb_refl.
  - apply String.eqb_neq. intros H. now apply of_int_inj in H.
Qed.

Lemma word_is_no_numeral (w k : string) :
  Str.forallb numeral_char w = false ->
  Str.forallb numeral_char k = true ->
  String.eqb w k = false.
Proof.
  intros Hw Hk. apply String.eqb_neq. intros ->. congruence.
Qed.

(** X2. On the decimal writing of an integer, [text_to_int] gives the integer
    for 1, 2, 3, 4, 5, 8, 12 and 13 and gives 0 for every other integer:
    6, 7, 9, 10, 11 and 14 are only known as words. *)
Theorem text_to_int_of_numeral (n : Z) :
  text_to_int (Some (Str.of_int n))
  = Ok (if existsb (Z.eqb n) digit_keys then n else 0%Z).
Proof.
  pose proof (of_int_numeral n) as Hn.
  unfold text_to_int. rewrite (numeral_clean _ Hn). f_equal.
  unfold mapping. cbn [Dict.get].
  rewrite !(fun w H => word_is_no_numeral w (Str.of_int n) H Hn) by reflexivity.
  change "12" with (Str.of_int 12). change "13" with (Str.of_int 13).
  change "1" with (Str.of_int 1). change "2" with (Str.of_int 2).
  change "3" with (Str.of_int 3). change "4" with (Str.of_int 4).
  change "5" with (Str.of_int 5). change "8" with (Str.of_int 8).
  rewrite !of_int_eqb. unfold digit_keys. cbn [existsb].
  repeat match goal with
         | |- context [(?k =? n)%Z] =>
             destruct (Z.eqb_spec k n) as [<-|?]; [reflexivity|]
         end.
  repeat match goal with
         | |- context [(n =? ?k)%Z] =>
             destruct (Z.eqb_spec n k) as [->|?]; [congruence|]
         end.
  reflexivity.
Qed.

(* ================================================================= *)
(** ** The segmenter: what the collection holds and in which order *)

Lemma length_append_ (a b : string) : length (a ++ b) = length a + length b.
Proof. induction a as [|x a IH]; cbn; [reflexivity | now rewrite IH]. Qed.

Lemma dict_set_set {V} (d : Dict.t V) (k : string) (v v' : V) :
  Dict.set (Dict.set d k v) k v' = Dict.set d k v'.
Proof.
  induction d as [|[k0 v0] d IH]; cbn [Dict.set].
  - now rewrite String.eqb_refl.
  - destruct (String.eqb k0 k) eqn:E; cbn [Dict.set]; rewrite E;
      [reflexivity | now rewrite IH].
Qed.

(** The loop body writes the article the line is attributed to, and
    nothing else. *)
Lemma line_step_articles (year : Z) (st : segmenter) (line : string) :
  segmenter_ok st ->
  exists st1,
    line_step (article_pattern year) st line = Ok st1
    /\ segmenter_ok st1
    /\ current_article st1 =
       match heading_key (article_pattern year) line with
       | Some k => Some k
       | None => current_article st
       end
    /\ articles st1 =
       match current_article st1 with
       | Some key =>
           Dict.set (articles st) key
                    (text_so_far (articles st) key ++ line ++ Str.newline)
       | None => articles st
       end.
Proof.
  intros Hok.
  destruct (line_step_effect year st line Hok) as (st1 & Hs & Hok1 & Hc & _).
  exists st1. split; [assumption|]. split; [assumption|]. split; [assumption|].
  destruct Hok as [Hkeys Hcur]. unfold line_step in Hs.
  assert (Hacc : forall key,
             append_line (if negb (Dict.mem (articles st) key)
                          then Dict.set (articles st) key EmptyString
                          else articles st) key line
             = Ok (Dict.set (articles st) key
                            (text_so_far (articles st) key ++ line ++ Str.newline))).
  { intros key. unfold append_line, Dict.getitem, Dict.mem, text_so_far.
    destruct (Dict.get (articles st) key) as [old|] eqn:E; cbn [negb].
    - rewrite E. reflexivity.
    - rewrite dict_get_set_same. cbn [bind]. now rewrite dict_set_set. }
  destruct (re_match (article_pattern year) line I_) as [m|] eqn:E.
  - apply new_key_of_heading in E as (key & Hkey & Hn & Hh).
    rewrite Hn in Hs. cbn [bind] in Hs.
    apply is_empty_false in Hkey. rewrite Hkey, Hacc in Hs. cbn [negb bind] in Hs.
    injection Hs as <-. reflexivity.
  - destruct (current_article st) as [key|] eqn:C.
    + assert (Hin := Hcur key eq_refl).
      assert (Hkey := Hkeys key Hin). apply is_empty_false in Hkey.
      pose proof (Hacc key) as Ha. apply dict_mem_true in Hin.
      rewrite Hin in Ha. cbn [negb] in Ha.
      rewrite Hkey, Ha in Hs. cbn [negb bind] in Hs. injection Hs as <-.
      reflexivity.
    + injection Hs as <-. now rewrite C.
Qed.

Lemma total_length_set (d : Dict.t string) (k v : string) :
  total_length (Dict.set d k v) + length (text_so_far d k)
  = total_length d + length v.
Proof.
  unfold total_length, text_so_far.
  induction d as [|[k0 v0] d IH]; simpl.
  - lia.
  - destruct (String.eqb k0 k); simpl; lia.
Qed.

Lemma lines_loop_total_length (year : Z) (lines : list string) :
  forall st,
    segmenter_ok st ->
    exists st',
      lines_loop (article_pattern year) st lines = Ok st'
      /\ total_length (articles st')
         = total_length (articles st)
           + kept_length (attribute (article_pattern year)
                                    (current_article st) lines).
Proof.
  induction lines as [|l rest IH]; intros st Hok.
  - exists st. cbn. split; [reflexivity | lia].
  - destruct (line_step_articles year st l Hok) as (st1 & Hs & Hok1 & Hc & Ha).
    destruct (IH st1 Hok1) as (st' & Hl & Ht).
    exists st'. cbn [lines_loop]. rewrite Hs. cbn [bind]. split; [assumption|].
    rewrite Ht, Ha. cbn [attribute kept_length]. rewrite <- Hc.
    destruct (current_article st1) as [key|]; [|reflexivity].
    pose proof (total_length_set (articles st) key
                  (text_so_far (articles st) key ++ l ++ Str.newline)) as E.
    rewrite !length_append_ in E. cbn [Str.newline length] in E. lia.
Qed.

(** X7. In a document that can be read, the collection holds exactly the
    characters of the lines attributed to an article, one line feed per
    line: no line is lost or taken twice. *)
Theorem segmenter_keeps_every_attributed_line
        (fs : string -> pdf) (year : Z) (path : string) (pages : list page) :
  fs path = Opened pages ->
  readable pages ->
  total_length (fst (parse_regulations fs year path))
  = kept_length (attribute (article_pattern year) None (doc_lines pages)).
Proof.
  intros Hfs Hr.
  destruct (parse_regulations_readable fs year path pages Hfs Hr)
    as (st & Hl & Hp & _).
  destruct (lines_loop_total_length year (doc_lines pages) _ segmenter_init_ok)
    as (st' & Hl' & Ht).
  rewrite Hl in Hl'. injection Hl' as <-. rewrite Hp, Ht. reflexivity.
Qed.

Lemma dict_mem_existsb {V} (d : Dict.t V) (k : string) :
  existsb (String.eqb k) (Dict.keys d) = Dict.mem d k.
Proof.
  unfold Dict.mem. induction d as [|[k0 v0] d IH]; cbn; [reflexivity|].
  rewrite (String.eqb_sym k k0). destruct (String.eqb k0 k); cbn; [reflexivity|].
  exact IH.
Qed.

Lemma dict_keys_set_add {V} (d : Dict.t V) (k : string) (v : V) :
  Dict.keys (Dict.set d k v) = add_key (Dict.keys d) k.
Proof.
  unfold add_key. rewrite dict_mem_existsb. unfold Dict.mem.
  induction d as [|[k0 v0] d IH]; cbn [Dict.set Dict.get Dict.keys List.map fst app];
    [reflexivity|].
  destruct (String.eqb k0 k); cbn [Dict.keys List.map fst]; [reflexivity|].
  unfold Dict.keys in IH. rewrite IH.
  destruct (Dict.get d k); reflexivity.
Qed.

Lemma add_key_present (seen : list string) (k : string) :
  In k seen -> add_key seen k = seen.
Proof.
  intros Hin. unfold add_key.
  assert (E : existsb (String.eqb k) seen = true).
  { apply existsb_exists. exists k. split; [assumption | apply String.eqb_refl]. }
  now rewrite E.
Qed.

Lemma lines_loop_keys (year : Z) (lines : list string) :
  forall st,
    segmenter_ok st ->
    exists st',
      lines_loop (article_pattern year) st lines = Ok st'
      /\ Dict.keys (articles st')
         = fold_left add_key (heading_keys (article_pattern year) lines)
                     (Dict.keys (articles st)).
Proof.
  induction lines as [|l rest IH]; intros st Hok.
  - exists st. split; reflexivity.
  - destruct (line_step_articles year st l Hok) as (st1 & Hs & Hok1 & Hc & Ha).
    destruct (IH st1 Hok1) as (st' & Hl & Hk).
    exists st'. cbn [lines_loop]. rewrite Hs. cbn [bind]. split; [assumption|].
    rewrite Hk. cbn [heading_keys flat_map].
    fold (heading_keys (article_pattern year) rest).
    rewrite Ha, Hc.
    destruct (heading_key (article_pattern year) l) as [key|].
    + cbn [app fold_left]. now rewrite dict_keys_set_add.
    + cbn [app]. destruct (current_article st) as [key|] eqn:C; [|reflexivity].
      rewrite dict_keys_set_add, add_key_present; [reflexivity|].
      destruct Hok as [_ Hcur]. now apply Hcur.
Qed.

(** X8. In a document that can be read, the articles stand in the
    collection in the order in which their identifiers first appear on a
    heading line. *)
Theorem articles_in_order_of_first_heading
        (fs : string -> pdf) (year : Z) (path : string) (pages : list page) :
  fs path = Opened pages ->
  readable pages ->
  Dict.keys (fst (parse_regulations fs year path))
  = first_seen (heading_keys (article_pattern year) (doc_lines pages)).
Proof.
  intros Hfs Hr.
  destruct (parse_regulations_readable fs year path pages Hfs Hr)
    as (st & Hl & Hp & _).
  destruct (lines_loop_keys year (doc_lines pages) _ segmenter_init_ok)
    as (st' & Hl' & Hk).
  rewrite Hl in Hl'. injection Hl' as <-. rewrite Hp, Hk. reflexivity.
Qed.

(** X9. How the lines are spread over the pages does not matter: two
    documents that can be read and have the same lines give the same
    collection, an article going on across page breaks and pages without
    text. *)
Theorem page_breaks_do_not_matter
        (fs1 fs2 : string -> pdf) (year : Z) (path1 path2 : string)
        (pages1 pages2 : list page) :
  fs1 path1 = Opened pages1 ->
  fs2 path2 = Opened pages2 ->
  readable pages1 ->
  readable pages2 ->
  doc_lines pages1 = doc_lines pages2 ->
  fst (parse_regulations fs1 year path1) = fst (parse_regulations fs2 year path2).
Proof.
  intros H1 H2 Hr1 Hr2 Hlines.
  destruct (parse_regulations_readable fs1 year path1 pages1 H1 Hr1)
    as (st1 & Hl1 & Hp1 & _).
  destruct (parse_regulations_readable fs2 year path2 pages2 H2 Hr2)
    as (st2 & Hl2 & Hp2 & _).
  rewrite Hlines in Hl1. congruence.
Qed.

(** Whatever the document, an article of the returned collection holds the
    lines attributed to it. *)
Lemma parse_regulations_get
      (fs : string -> pdf) (year : Z) (path key text : string) :
  Dict.get (fst (parse_regulations fs year path)) key = Some text ->
  exists pages,
    fs path = Opened pages
    /\ readable pages
    /\ attributed_to key (attribute (article_pattern year) None (doc_lines pages))
    /\ text = text_of key (attribute (article_pattern year) None (doc_lines pages)).
Proof.
  intros Hget. destruct (fs path) as [|pages] eqn:Hfs.
  - rewrite parse_regulations_unreadable in Hget; [discriminate|].
    left. assumption.
  - destruct (in_dec page_eq_dec PageFails pages) as [Hin|Hout].
    + rewrite parse_regulations_unreadable in Hget; [discriminate|].
      right. now exists pages.
    + destruct (parse_regulations_readable fs year path pages Hfs Hout)
        as (st & _ & Hp & Hspec).
      rewrite Hp, Hspec in Hget.
      destruct (attributedb key _) eqn:E; [|discriminate].
      apply attributedb_spec in E. injection Hget as <-.
      exists pages. auto.
Qed.

Lemma text_of_starts_with_heading (pat : regex) (key : string)
      (lines : list string) :
  forall cur,
    cur <> Some key ->
    attributed_to key (attribute pat cur lines) ->
    exists line rest,
      In line lines
      /\ heading_key pat line = Some key
      /\ text_of key (attribute pat cur lines) = line ++ Str.newline ++ rest.
Proof.
  induction lines as [|l lines IH]; intros cur Hcur [x Hin]; [destruct Hin|].
  cbn [attribute] in Hin |- *. cbn [text_of].
  destruct (heading_key pat l) as [k|] eqn:Hk.
  - destruct (String.eqb_spec k key) as [->|Hne].
    + exists l. eexists. split; [now left|]. split; [assumption | reflexivity].
    + destruct Hin as [Hin|Hin]; [congruence|].
      destruct (IH (Some k)) as (line & rest & Hl & Hh & Ht);
        [congruence | now exists x|].
      exists line, rest. split; [now right|]. now split.
  - destruct Hin as [Hin|Hin]; [congruence|].
    destruct (IH cur Hcur) as (line & rest & Hl & Hh & Ht); [now exists x|].
    exists line, rest. split; [now right|]. split; [assumption|].
    destruct cur as [k|]; [|assumption].
    destruct (String.eqb_spec k key) as [->|Hne]; [congruence | assumption].
Qed.

(** X10. Whatever the document, the text of an article begins with a heading
    line of the document that carries the article's identifier. *)
Theorem article_begins_with_its_heading
        (fs : string -> pdf) (year : Z) (path key text : string) :
  Dict.get (fst (parse_regulations fs year path)) key = Some text ->
  exists pages line rest,
    fs path = Opened pages
    /\ In line (doc_lines pages)
    /\ heading_key (article_pattern year) line = Some key
    /\ text = line ++ Str.newline ++ rest.
Proof.
  intros Hget.
  apply parse_regulations_get in Hget as (pages & Hfs & _ & Ha & ->).
  destruct (text_of_starts_with_heading (article_pattern year) key
              (doc_lines pages) None) as (line & rest & Hl & Hh & Ht);
    [discriminate | assumption|].
  exists pages, line, rest. auto.
Qed.

(* ================================================================= *)
(** ** A document with one article *)

Lemma split_lines_nonempty (s : string) : Str.split_lines s <> [].
Proof.
  destruct s as [|c s]; cbn [Str.split_lines]; [discriminate|].
  destruct (Ascii.eqb c "010"%char); [discriminate|].
  destruct (Str.split_lines s); discriminate.
Qed.

(** Joining the lines of a text with line feeds gives the text back. *)
Lemma concat_split_lines (s : string) :
  String.concat Str.newline (Str.split_lines s) = s.
Proof.
  induction s as [|c s IH]; [reflexivity|]. cbn [Str.split_lines].
  pose proof (split_lines_nonempty s) as Hn.
  destruct (Str.split_lines s) as [|l ls]; [contradiction|].
  destruct (Ascii.eqb_spec c "010"%char) as [->|Hne].
  - change (String.concat Str.newline (EmptyString :: l :: ls))
      with (String "010"%char (String.concat Str.newline (l :: ls))).
    now rewrite IH.
  - rewrite <- IH. destruct ls; reflexivity.
Qed.

Lemma join_lines_concat (l : string) (ls : list string) :
  join_lines (l :: ls) = String.concat Str.newline (l :: ls) ++ Str.newline.
Proof.
  revert l; induction ls as [|l' ls IH]; intros l.
  - cbn. now rewrite ?append_nil_r.
  - cbn [join_lines String.concat] in *. rewrite IH. now reassoc.
Qed.

Lemma body_lines_accumulate (year : Z) (key : string) (body : list string) :
  key <> EmptyString ->
  (forall l, In l body -> heading_key (article_pattern year) l = None) ->
  forall t,
    lines_loop (article_pattern year)
               {| articles := [(key, t)]; current_article := Some key |} body
    = Ok {| articles := [(key, t ++ join_lines body)];
            current_article := Some key |}.
Proof.
  intros Hkey. induction body as [|l body IH]; intros Hb t.
  - cbn. now rewrite append_nil_r.
  - assert (Hok : segmenter_ok
                    {| articles := [(key, t)]; current_article := Some key |}).
    { split; cbn.
      - intros k [<- | []]. assumption.
      - intros k [= <-]. now left. }
    destruct (line_step_articles year _ l Hok) as ([arts cur] & Hs & _ & Hc & Ha).
    cbn [current_article articles] in Hc, Ha.
    rewrite (Hb l (or_introl eq_refl)) in Hc. subst cur.
    unfold text_so_far in Ha. cbn [Dict.set Dict.get] in Ha.
    rewrite String.eqb_refl in Ha. subst arts.
    cbn [lines_loop]. rewrite Hs. cbn [bind].
    rewrite IH by (intros l' Hl'; apply Hb; now right).
    cbn [join_lines]. now rewrite !append_assoc.
Qed.

(** X11. A one-page document whose first line is a heading and which has no
    other heading line gives a single article, under the heading's
    identifier, whose text is the text of the page followed by a line
    feed. *)
Theorem single_article_keeps_the_page
        (fs : string -> pdf) (year : Z) (path text h key : string)
        (body : list string) :
  fs path = Opened [Page (Some text)] ->
  Str.split_lines text = h :: body ->
  heading_key (article_pattern year) h = Some key ->
  (forall l, In l body -> heading_key (article_pattern year) l = None) ->
  fst (parse_regulations fs year path) = [(key, text ++ Str.newline)].
Proof.
  intros Hfs Hsplit Hh Hbody.
  assert (Hkey := heading_key_nonempty year h key Hh).
  assert (Hne : Str.is_empty text = false).
  { destruct text; [|reflexivity]. inversion Hsplit; subst.
    unfold article_pattern in Hh.
    destruct (year =? 2026)%Z; vm_compute in Hh; discriminate. }
  unfold parse_regulations, read_articles. rewrite Hfs.
  cbn [pages_loop page_step]. rewrite Hne, Hsplit. cbn [lines_loop].
  destruct (line_step_articles year segmenter_init h segmenter_init_ok)
    as ([arts cur] & Hs & _ & Hc & Ha).
  cbn [current_article articles segmenter_init] in Hc, Ha.
  rewrite Hh in Hc. subst cur. unfold text_so_far in Ha.
  cbn [Dict.set Dict.get append] in Ha. subst arts.
  rewrite Hs. cbn [bind].
  rewrite (body_lines_accumulate year key body Hkey Hbody). cbn [bind fst articles].
  rewrite append_assoc.
  change (h ++ Str.newline ++ join_lines body) with (join_lines (h :: body)).
  now rewrite join_lines_concat, <- Hsplit, concat_split_lines.
Qed.

(* ================================================================= *)
(** ** The locator: what it reads of an article *)








(* ================================================================= *)
(** ** The aggregation loop: one record per year *)

Lemma parse_regulations_nodup (fs : string -> pdf) (year : Z) (path : string) :
  NoDup (Dict.keys (fst (parse_regulations fs year path))).
Proof.
  destruct (fs path) as [|pages] eqn:Hfs.
  - rewrite parse_regulations_unreadable by (left; assumption). constructor.
  - destruct (in_dec page_eq_dec PageFails pages) as [Hin|Hout].
    + rewrite parse_regulations_unreadable by (right; now exists pages).
      constructor.
    + destruct (parse_regulations_readable fs year path pages Hfs Hout)
        as (st & Hl & -> & _).
      eapply lines_loop_nodup; [|exact Hl]. constructor.
Qed.

Lemma dict_get_middle {V} (before after : Dict.t V) (k : string) (v : V) :
  ~ In k (Dict.keys before) ->
  Dict.get (before ++ (k, v) :: after)%list k = Some v.
Proof.
  induction before as [|[k0 v0] before IH]; cbn [app Dict.get Dict.keys List.map fst];
    intros Hnin.
  - now rewrite String.eqb_refl.
  - destruct (String.eqb_spec k0 k) as [->|Hne].
    + exfalso. apply Hnin. now left.
    + apply IH. intros H. apply Hnin. now right.
Qed.

(** In a collection without repeated identifiers, the article the locator
    names is the one whose header it matched. *)
Lemma located_article (arts : Dict.t string) (id : string) :
  NoDup (Dict.keys arts) ->
  find_tyre_article_id arts = Some id ->
  exists text, Dict.get arts id = Some text /\ tyre_header text.
Proof.
  intros Hnd H. apply find_tyre_article_id_some in H as (b & c & a & -> & Hc & _).
  exists c. split; [|assumption]. apply dict_get_middle.
  unfold Dict.keys in Hnd. rewrite map_app in Hnd. cbn [List.map fst] in Hnd.
  apply NoDup_remove_2 in Hnd. intros Hin. apply Hnd, in_or_app. now left.
Qed.

Lemma record_of_sound (fs : string -> pdf) (year : Z) (path : string)
      (c : constraints) :
  record_of fs year path = Some c ->
  source_article c <> EmptyString
  /\ find_tyre_article_id (fst (parse_regulations fs year path))
     = Some (source_article c)
  /\ exists text,
      Dict.get (fst (parse_regulations fs year path)) (source_article c)
      = Some text
      /\ tyre_header text
      /\ extract_tyre_data text = Ok (fields c).
Proof.
  unfold record_of. cbn zeta.
  destruct (find_tyre_article_id _) as [id|] eqn:F; [|discriminate].
  destruct (located_article _ id (parse_regulations_nodup fs year path) F)
    as (text & Hg & Hh).
  rewrite Hg. destruct (extract_tyre_data text) as [data|] eqn:X; [|discriminate].
  intros [= <-]. cbn [source_article fields]. split; [|split; [reflexivity|]].
  - apply (parse_regulations_keys fs year path).
    now apply find_tyre_article_id_key.
  - now exists text.
Qed.

Lemma year_step_db (fs : string -> pdf) (db db1 : database) (log log1 : list msg)
      (year : Z) (path : string) :
  year_step fs (db, log) (year, path) = Ok (db1, log1) ->
  db1 = match record_of fs year path with
        | Some c => Dict.set db (Str.of_int year) c
        | None => db
        end.
Proof.
  pose proof (year_step_spec fs db year path) as H. cbn zeta in H.
  unfold record_of. cbn zeta.
  destruct (find_tyre_article_id _) as [id|].
  - destruct H as (text & d & -> & -> & H). rewrite H. now intros [= <- _].
  - rewrite H. now intros [= <- _].
Qed.

Lemma years_loop_db (fs : string -> pdf) (files : list (Z * string)) :
  forall db0 log0 db log,
    NoDup (years_of files) ->
    years_loop fs (db0, log0) files = Ok (db, log) ->
    (forall year path,
        In (year, path) files ->
        Dict.get db (Str.of_int year)
        = match record_of fs year path with
          | Some c => Some c
          | None => Dict.get db0 (Str.of_int year)
          end)
    /\ (forall k, (forall y, In y (years_of files) -> k <> Str.of_int y) ->
                  Dict.get db k = Dict.get db0 k).
Proof.
  induction files as [|[y p] files IH]; intros db0 log0 db log Hnd Hrun.
  - cbn in Hrun. injection Hrun as <- <-. split; [intros ? ? []|reflexivity].
  - cbn [years_loop] in Hrun.
    destruct (year_step fs (db0, log0) (y, p)) as [[db1 log1]|] eqn:S;
      cbn [bind] in Hrun; [|discriminate].
    apply year_step_db in S.
    cbn [years_of List.map fst] in Hnd. inversion Hnd as [|? ? Hnin Hnd']; subst.
    destruct (IH _ _ _ _ Hnd' Hrun) as [Hin Hout].
    assert (Hother : forall k, k <> Str.of_int y ->
                               Dict.get
                                 match record_of fs y p with
                                 | Some c => Dict.set db0 (Str.of_int y) c
                                 | None => db0
                                 end k = Dict.get db0 k).
    { intros k Hk. destruct (record_of fs y p); [|reflexivity].
      apply dict_get_set_other. congruence. }
    split.
    + intros year path [[= <- <-] | Hfiles].
      * rewrite Hout by (now apply other_years_keys).
        destruct (record_of fs y p); [apply dict_get_set_same | reflexivity].
      * rewrite (Hin year path Hfiles).
        destruct (record_of fs year path); [reflexivity|].
        apply Hother. intros E. apply of_int_inj in E.
        apply Hnin. rewrite <- E. exact (in_map fst files (year, path) Hfiles).
    + intros k Hk. rewrite Hout.
      * apply Hother. apply Hk. now left.
      * intros y' Hy'. apply Hk. now right.
Qed.

(** X15. With the years of the table all different, the run leaves under
    each year the record that the year's own document gives, whatever the
    other documents are, no entry when that document has no located tyre
    article, and no entry under any other key. *)
Theorem database_holds_each_years_own_record
        (fs : string -> pdf) (files : list (Z * string))
        (db : database) (log : list msg) :
  NoDup (years_of files) ->
  years_loop fs initial_state files = Ok (db, log) ->
  (forall year path,
      In (year, path) files ->
      Dict.get db (Str.of_int year) = record_of fs year path)
  /\ (forall k, (forall y, In y (years_of files) -> k <> Str.of_int y) ->
                Dict.get db k = None).
Proof.
  intros Hnd Hrun. unfold initial_state in Hrun.
  destruct (years_loop_db fs files _ _ _ _ Hnd Hrun) as [Hin Hout]. split.
  - intros year path Hf. rewrite (Hin year path Hf).
    now destruct (record_of fs year path).
  - intros k Hk. now rewrite Hout.
Qed.

(** X16. With the years of the table all different, every record of the
    final database stands under the decimal writing of a year of the table;
    its source article is a non-empty identifier that the locator gave for
    that year's collection, the text of that article has a tyre phrase in
    its header, and its fields are the extractor's on that text, the two
    counts between 0 and 14. *)
Theorem stored_record_comes_from_a_tyre_article
        (fs : string -> pdf) (files : list (Z * string))
        (db : database) (log : list msg) (k : string) (c : constraints) :
  NoDup (years_of files) ->
  years_loop fs initial_state files = Ok (db, log) ->
  Dict.get db k = Some c ->
  exists year path text,
    In (year, path) files
    /\ k = Str.of_int year
    /\ source_article c <> EmptyString
    /\ find_tyre_article_id (fst (parse_regulations fs year path))
       = Some (source_article c)
    /\ Dict.get (fst (parse_regulations fs year path)) (source_article c)
       = Some text
    /\ tyre_header text
    /\ extract_tyre_data text = Ok (fields c)
    /\ (0 <= mandatory_dry_compounds (fields c) <= 14)%Z
    /\ (0 <= total_sets_allocated (fields c) <= 14)%Z.
Proof.
  intros Hnd Hrun Hget. unfold initial_state in Hrun.
  destruct (years_loop_db fs files _ _ _ _ Hnd Hrun) as [Hin Hout].
  destruct (find (fun e => String.eqb k (Str.of_int (fst e))) files)
    as [[year path]|] eqn:F.
  - apply find_some in F as [Hf Hk]. cbn [fst] in Hk. apply String.eqb_eq in Hk.
    subst k. rewrite (Hin year path Hf) in Hget.
    destruct (record_of fs year path) as [c'|] eqn:R; [|discriminate].
    injection Hget as ->.
    destruct (record_of_sound fs year path c R) as (Hs & Hfind & text & Hg & Hh & Hx).
    exists year, path, text. repeat split; try assumption.
    all: destruct (extract_tyre_data_ok text) as (mn & tot & _ & Hmn & _ & Htot & Hx');
      rewrite Hx in Hx'; injection Hx' as ->; cbn; lia.
  - rewrite Hout in Hget; [discriminate|].
    intros y Hy ->. unfold years_of in Hy. apply in_map_iff in Hy as ([y' p] & <- & Hf).
    apply (find_none _ _ F) in Hf. cbn [fst] in Hf.
    now rewrite String.eqb_refl in Hf.
Qed.

Lemma parsed_years_app (a b : list msg) :
  parsed_years (a ++ b) = (parsed_years a ++ parsed_years b)%list.
Proof. unfold parsed_years. apply flat_map_app. Qed.

Lemma parse_regulations_log (fs : string -> pdf) (year : Z) (path : string) :
  parsed_years (snd (parse_regulations fs year path)) = [year].
Proof.
  unfold parse_regulations.
  destruct (read_articles (article_pattern year) (fs path)); reflexivity.
Qed.

Lemma year_step_log (fs : string -> pdf) (db : database) (entry : Z * string) :
  exists db' out,
    (forall log, year_step fs (db, log) entry = Ok (db', (log ++ out)%list))
    /\ parsed_years out = [fst entry].
Proof.
  destruct entry as [year path].
  pose proof (year_step_spec fs db year path) as H. cbn zeta in H.
  pose proof (parse_regulations_log fs year path) as Hp.
  destruct (find_tyre_article_id (fst (parse_regulations fs year path))) as [id|].
  - destruct H as (text & d & _ & _ & H). eexists _, _. split.
    + intros log. rewrite H. reflexivity.
    + rewrite parsed_years_app, Hp. cbn.
      now destruct (total_sets_allocated d =? 0)%Z.
  - eexists _, _. split.
    + intros log. rewrite H. reflexivity.
    + now rewrite parsed_years_app, Hp.
Qed.

(** X17. Whatever the files hold, the loop over the table raises nothing
    and takes every entry in turn: the years announced in the log are the
    years of the table, in the table's order. *)
Theorem loop_handles_every_entry
        (fs : string -> pdf) (files : list (Z * string)) :
  exists db log,
    years_loop fs initial_state files = Ok (db, log)
    /\ parsed_years log = years_of files.
Proof.
  unfold initial_state.
  assert (H : forall db0, exists db out,
               (forall log0, years_loop fs (db0, log0) files
                             = Ok (db, (log0 ++ out)%list))
               /\ parsed_years out = years_of files).
  { induction files as [|e files IH]; intros db0.
    - exists db0, []. split; [intros; cbn; now rewrite app_nil_r | reflexivity].
    - destruct (year_step_log fs db0 e) as (db1 & out1 & Hs & Hp1).
      destruct (IH db1) as (db2 & out2 & Hl & Hp2).
      exists db2, (out1 ++ out2)%list. split.
      + intros log0. cbn [years_loop]. rewrite Hs. cbn [bind].
        rewrite Hl. now rewrite app_assoc.
      + rewrite parsed_years_app, Hp1, Hp2. reflexivity. }
  destruct (H []) as (db & out & Hrun & Hp).
  exists db. eexists. split; [apply Hrun|].
  rewrite parsed_years_app, Hp. reflexivity.
Qed.

(* ================================================================= *)
(** ** The further properties at sample documents *)

Lemma regulation_years_distinct : NoDup (years_of REGULATION_FILES).
Proof. cbn. repeat constructor; cbn; lia. Qed.

Lemma article_form_identifier_witness :
  heading_key (article_pattern 2018) "  Article 24 SUPPLY" = Some "24".
Proof.
  apply (article_form_identifier 2018 "  " "Article" " " "24" " SUPPLY");
    try reflexivity; discriminate.
Defined.

Lemma sectioned_identifier_witness :
  heading_key (article_pattern 2026) "ARTICLE b6.1 Tyres" = Some "b6.1".
Proof.
  assert (Hart : "ARTICLE " = EmptyString
                 \/ exists a sp, "ARTICLE " = a ++ sp /\ article_word a
                                 /\ blanks sp /\ sp <> EmptyString).
  { right. exists "ARTICLE", " ". repeat split; try reflexivity. discriminate. }
  destruct (sectioned_identifier EmptyString "ARTICLE " "6" "b"
              eq_refl Hart (or_intror eq_refl) eq_refl) as [H _];
    [discriminate|].
  apply (H "1" " Tyres"); try reflexivity; discriminate.
Defined.

Lemma strategy_C_covers_A_witness :
  re_search strategy_C "each driver is allocated 13 sets" I_S <> None.
Proof.
  apply strategy_C_covers_A. vm_compute. discriminate.
Defined.

Lemma segmenter_keeps_every_attributed_line_witness :
  total_length (fst (parse_regulations (Sample.fs_of Sample.resumed_article)
                                       2018 Sample.path_2018))
  = kept_length (attribute (article_pattern 2018) None
                           (doc_lines Sample.resumed_article)).
Proof.
  apply (segmenter_keeps_every_attributed_line
           (Sample.fs_of Sample.resumed_article) 2018 Sample.path_2018
           Sample.resumed_article).
  - reflexivity.
  - intros [X | [X | []]]; discriminate.
Defined.

Lemma articles_in_order_of_first_heading_witness :
  Dict.keys (fst (parse_regulations (Sample.fs_of Sample.resumed_article)
                                    2018 Sample.path_2018))
  = first_seen (heading_keys (article_pattern 2018)
                             (doc_lines Sample.resumed_article)).
Proof.
  apply (articles_in_order_of_first_heading
           (Sample.fs_of Sample.resumed_article) 2018 Sample.path_2018
           Sample.resumed_article).
  - reflexivity.
  - intros [X | [X | []]]; discriminate.
Defined.

Lemma page_breaks_do_not_matter_witness :
  fst (parse_regulations (Sample.fs_of Sample.resumed_article) 2018
                         Sample.path_2018)
  = fst (parse_regulations (Sample.fs_of Cases.resumed_on_one_page) 2018
                           Sample.path_2018).
Proof.
  apply (page_breaks_do_not_matter
           (Sample.fs_of Sample.resumed_article)
           (Sample.fs_of Cases.resumed_on_one_page) 2018
           Sample.path_2018 Sample.path_2018
           Sample.resumed_article Cases.resumed_on_one_page).
  - reflexivity.
  - reflexivity.
  - intros [X | [X | []]]; discriminate.
  - intros [X | []]; discriminate.
  - reflexivity.
Defined.

Lemma article_begins_with_its_heading_witness :
  exists pages line rest,
    Sample.fs_of Sample.resumed_article Sample.path_2018 = Opened pages
    /\ In line (doc_lines pages)
    /\ heading_key (article_pattern 2018) line = Some "25"
    /\ Cases.weighing_text = line ++ Str.newline ++ rest.
Proof.
  apply (article_begins_with_its_heading
           (Sample.fs_of Sample.resumed_article) 2018 Sample.path_2018
           "25" Cases.weighing_text).
  reflexivity.
Defined.

Lemma single_article_keeps_the_page_witness :
  fst (parse_regulations
         (Sample.fs_of [Page (Some Cases.tyre_page_text)]) 2018 Sample.path_2018)
  = [("24", Cases.tyre_page_text ++ Str.newline)].
Proof.
  apply (single_article_keeps_the_page
           (Sample.fs_of [Page (Some Cases.tyre_page_text)]) 2018
           Sample.path_2018 Cases.tyre_page_text
           "24. SUPPLY OF TYRES" "24"
           ["Each driver must use at least two (2) different";
            "specifications... allocated thirteen (13) sets per event."]).
  - reflexivity.
  - reflexivity.
  - reflexivity.
  - intros l [<- | [<- | []]]; reflexivity.
Defined.

Lemma database_holds_each_years_own_record_witness :
  exists db log,
    run_script Sample.fs_2020_missing = Ok (db, log)
    /\ Dict.get db (Str.of_int 2020)
       = record_of Sample.fs_2020_missing 2020 Sample.path_2020
    /\ Dict.get db (Str.of_int 2018)
       = record_of Sample.fs_2020_missing 2018 Sample.path_2018.
Proof.
  destruct (years_loop_total Sample.fs_2020_missing REGULATION_FILES [])
    as (db & out & Hrun & _).
  exists db, ([MsgStarting] ++ out)%list.
  assert (H := Hrun [MsgStarting]). split; [exact H|].
  destruct (database_holds_each_years_own_record
              Sample.fs_2020_missing REGULATION_FILES db _
              regulation_years_distinct H) as [Hin _].
  split; apply Hin; cbn; auto.
Defined.

Lemma stored_record_comes_from_a_tyre_article_witness :
  exists c year path text,
    In (year, path) REGULATION_FILES
    /\ "2018" = Str.of_int year
    /\ source_article c <> EmptyString
    /\ find_tyre_article_id
         (fst (parse_regulations (Sample.fs_of Sample.with_title_page) year path))
       = Some (source_article c)
    /\ Dict.get
         (fst (parse_regulations (Sample.fs_of Sample.with_title_page) year path))
         (source_article c) = Some text
    /\ tyre_header text
    /\ extract_tyre_data text = Ok (fields c)
    /\ (0 <= mandatory_dry_compounds (fields c) <= 14)%Z
    /\ (0 <= total_sets_allocated (fields c) <= 14)%Z.
Proof.
  eexists.
  eapply (stored_record_comes_from_a_tyre_article
            (Sample.fs_of Sample.with_title_page) REGULATION_FILES _ _ "2018").
  - exact regulation_years_distinct.
  - vm_compute. reflexivity.
  - vm_compute. reflexivity.
Defined.
